(** * zipline.finance.risk.risk: treasury-rate resolution, rolling periods
      and the Sortino ratio.

    A shallow embedding of [src/zipline/finance/risk/risk.py].

    - Python [datetime] values are records of calendar fields; the four
      time-of-day fields are fused into one count of microseconds since
      midnight, which keeps the order and the arithmetic of the original.
      Years are unbounded here (Python stops at year 9999).
    - Python floats are IEEE 754 binary64 numbers, taken from the
      executable specification [SpecFloat] of the Standard Library.
    - The curve table (a pandas Series indexed by date) is an association
      list in index order; a curve (a dict keyed by duration label) is a
      function from the ten labels to an optional rate.
    - Exceptions are values of [exn]; the log is the list of emitted
      warnings.
    - The [while True] loop of [periods_in_range] takes a fuel argument. *)

From Stdlib Require Import ZArith List Bool Lia Sorted SpecFloat.
From Stdlib Require String.
Import ListNotations.
Open Scope Z_scope.

(** ** Calendar values ([datetime.datetime], [timedelta], [relativedelta]) *)

Module Calendar.

Record datetime := mkdt { year : Z; month : Z; day : Z; tod : Z }.

Definition us_per_day : Z := 86400000000.

Definition is_leap (y : Z) : bool :=
  (y mod 4 =? 0) && (negb (y mod 100 =? 0) || (y mod 400 =? 0)).

Definition days_in_month (y m : Z) : Z :=
  if m =? 2 then (if is_leap y then 29 else 28)
  else if (m =? 4) || (m =? 6) || (m =? 9) || (m =? 11) then 30
  else 31.

Definition days_before_year (y : Z) : Z :=
  let y' := y - 1 in y' * 365 + y' / 4 - y' / 100 + y' / 400.

Definition days_before_month (y m : Z) : Z :=
  (match m with
   | 1 => 0 | 2 => 31 | 3 => 59 | 4 => 90 | 5 => 120 | 6 => 151
   | 7 => 181 | 8 => 212 | 9 => 243 | 10 => 273 | 11 => 304 | _ => 334
   end) + (if (2 <? m) && is_leap y then 1 else 0).

Definition toordinal (d : datetime) : Z :=
  days_before_year (year d) + days_before_month (year d) (month d) + day d.

(** Microseconds since the start of day 0 of the proleptic calendar. *)
Definition total_us (d : datetime) : Z := toordinal d * us_per_day + tod d.

(** [(a - b).days]: a timedelta is normalised so that its seconds and
    microseconds are non-negative, hence the floor. *)
Definition timedelta_days (a b : datetime) : Z :=
  (total_us a - total_us b) / us_per_day.

Definition valid (d : datetime) : Prop :=
  1 <= month d <= 12 /\ 1 <= day d <= days_in_month (year d) (month d) /\
  0 <= tod d < us_per_day.

(** Comparison is field by field, as for the tuples Python compares. *)
Definition dt_compare (a b : datetime) : comparison :=
  match year a ?= year b with
  | Eq => match month a ?= month b with
          | Eq => match day a ?= day b with
                  | Eq => tod a ?= tod b
                  | c => c
                  end
          | c => c
          end
  | c => c
  end.

Definition dt_eqb (a b : datetime) : bool :=
  match dt_compare a b with Eq => true | _ => false end.
Definition dt_ltb (a b : datetime) : bool :=
  match dt_compare a b with Lt => true | _ => false end.
Definition dt_leb (a b : datetime) : bool :=
  match dt_compare a b with Gt => false | _ => true end.

(** [d.replace(day=1)] *)
Definition replace_day1 (d : datetime) : datetime :=
  mkdt (year d) (month d) 1 (tod d).

(** [d.replace(hour=0, minute=0, second=0, microsecond=0)] *)
Definition replace_midnight (d : datetime) : datetime :=
  mkdt (year d) (month d) (day d) 0.

(** Months since year 0, January. *)
Definition month_index (d : datetime) : Z := year d * 12 + (month d - 1).

(** [relativedelta(months=n)] keeps at most eleven months and turns the
    rest into years, with the sign of [n]. *)
Definition normalized_months (n : Z) : Z * Z :=
  if 11 <? Z.abs n then
    let s := Z.sgn n in
    (s * (Z.abs n / 12), s * (Z.abs n mod 12))
  else (0, n).

(** Year and month of [d + relativedelta(months=n)] for a date in year [y],
    month [m]. *)
Definition shifted_year_month (y m n : Z) : Z * Z :=
  let '(years, months) := normalized_months n in
  let year := y + years in
  let month := m + months in
  if 12 <? month then (year + 1, month - 12)
  else if month <? 1 then (year - 1, month + 12)
  else (year, month).

(** [d + relativedelta(months=n)]: the month moves, the year carries, the
    day is clipped to the length of the month reached. *)
Definition add_months (d : datetime) (n : Z) : datetime :=
  let '(y, m) := shifted_year_month (year d) (month d) n in
  mkdt y m (Z.min (days_in_month y m) (day d)) (tod d).

(** [d - datetime.timedelta(days=1)] *)
Definition sub_one_day (d : datetime) : datetime :=
  if 1 <? day d then mkdt (year d) (month d) (day d - 1) (tod d)
  else if 1 <? month d
       then mkdt (year d) (month d - 1) (days_in_month (year d) (month d - 1)) (tod d)
       else mkdt (year d - 1) 12 31 (tod d).

Definition is_first_of_month (d : datetime) : Prop := day d = 1.
Definition is_last_of_month (d : datetime) : Prop :=
  day d = days_in_month (year d) (month d).

End Calendar.
Import Calendar.

(** ** Treasury durations *)

Inductive duration :=
  | d1month | d3month | d6month | d1year | d2year
  | d3year | d5year | d7year | d10year | d30year.

Definition duration_eqb (a b : duration) : bool :=
  match a, b with
  | d1month, d1month | d3month, d3month | d6month, d6month
  | d1year, d1year | d2year, d2year | d3year, d3year | d5year, d5year
  | d7year, d7year | d10year, d10year | d30year, d30year => true
  | _, _ => false
  end.

Definition TREASURY_DURATIONS : list duration :=
  [d1month; d3month; d6month; d1year; d2year; d3year; d5year; d7year;
   d10year; d30year].

(** [l.index(x)]; every label occurs in [TREASURY_DURATIONS], so the
    [ValueError] of a missing element cannot arise and the length is
    returned in its place. *)
Fixpoint index (x : duration) (l : list duration) : nat :=
  match l with
  | [] => O
  | y :: l' => if duration_eqb y x then O else S (index x l')
  end.

Definition select_treasury_duration (start_date end_date : datetime) : duration :=
  let td_days := timedelta_days end_date start_date in
  if td_days <=? 31 then d1month
  else if td_days <=? 93 then d3month
  else if td_days <=? 186 then d6month
  else if td_days <=? 366 then d1year
  else if td_days <=? 365 * 2 + 1 then d2year
  else if td_days <=? 365 * 3 + 1 then d3year
  else if td_days <=? 365 * 5 + 2 then d5year
  else if td_days <=? 365 * 7 + 2 then d7year
  else if td_days <=? 365 * 10 + 2 then d10year
  else d30year.

(** The threshold table of the specification, as a function of the
    elapsed whole days. *)
Definition bucket_of_days (d : Z) : duration :=
  if d <=? 31 then d1month
  else if d <=? 93 then d3month
  else if d <=? 186 then d6month
  else if d <=? 366 then d1year
  else if d <=? 731 then d2year
  else if d <=? 1096 then d3year
  else if d <=? 1827 then d5year
  else if d <=? 2557 then d7year
  else if d <=? 3652 then d10year
  else d30year.

Definition bucket_index (b : duration) : nat := index b TREASURY_DURATIONS.

(** ** Floating-point numbers (IEEE 754 binary64) *)

Module Float.

Definition float := spec_float.
Definition prec : Z := 53.
Definition emax : Z := 1024.

Definition fadd : float -> float -> float := SFadd prec emax.
Definition fsub : float -> float -> float := SFsub prec emax.
Definition fmul : float -> float -> float := SFmul prec emax.
Definition fdiv : float -> float -> float := SFdiv prec emax.
Definition fsqrt : float -> float := SFsqrt prec emax.
Definition fabs : float -> float := SFabs.
Definition fltb : float -> float -> bool := SFltb.
Definition fleb : float -> float -> bool := SFleb.

(** Conversion of a Python [int], rounding to the nearest double. *)
Definition of_int (z : Z) : float := binary_normalize prec emax z 0 false.

Definition zero : float := S754_zero false.

End Float.
Import Float.

(** ** The curve table *)

Definition curve := duration -> option float.
Definition curve_table := list (datetime * curve).

Record warning := mkwarn { w_dt : datetime; w_term : duration; w_search_day : datetime }.

Inductive exn :=
  | KeyError (day : datetime)
  | IndexError
  | AssertionError
  | NoRate (dt : datetime) (term : duration).

Inductive res (A : Type) :=
  | Ok (a : A)
  | Raise (e : exn).
Arguments Ok {A} a.
Arguments Raise {A} e.

(** [treasury_curves[day]] *)
Fixpoint lookup (day : datetime) (treasury_curves : curve_table) : option curve :=
  match treasury_curves with
  | [] => None
  | (d, c) :: rest => if dt_eqb d day then Some c else lookup day rest
  end.

(** [day in treasury_curves] *)
Definition contains (day : datetime) (treasury_curves : curve_table) : bool :=
  match lookup day treasury_curves with Some _ => true | None => false end.

(** [treasury_curves.index] *)
Definition index_of (treasury_curves : curve_table) : list datetime :=
  map fst treasury_curves.

(** [a.searchsorted(v)] with the default [side='left']: on a sorted index,
    the first position whose date is not before [v]. *)
Fixpoint searchsorted (a : list datetime) (v : datetime) : nat :=
  match a with
  | [] => O
  | x :: a' => if dt_ltb x v then S (searchsorted a' v) else O
  end.

(** [l[start::-1]]: Python adds the length to a negative start, then
    clamps the start into [-1 .. len-1] and walks down to position 0. *)
Definition slice_back {A : Type} (l : list A) (start : Z) : list A :=
  let n := Z.of_nat (length l) in
  let s := if start <? 0 then start + n else start in
  let s := if s <? 0 then -1 else if n <=? s then n - 1 else s in
  rev (firstn (Z.to_nat (s + 1)) l).

(** The [for duration in TREASURY_DURATIONS[idx:]] loop. *)
Fixpoint first_rate (c : curve) (durations : list duration) : option float :=
  match durations with
  | [] => None
  | duration :: rest =>
      match c duration with
      | Some rate => Some rate
      | None => first_rate c rest
      end
  end.

Definition get_treasury_rate (treasury_curves : curve_table)
    (treasury_duration : duration) (day : datetime) : res (option float) :=
  match lookup day treasury_curves with
  | None => Raise (KeyError day)
  | Some c =>
      let idx := index treasury_duration TREASURY_DURATIONS in
      Ok (first_rate c (skipn idx TREASURY_DURATIONS))
  end.

(** [search_days[0] <= end_day <= search_days[-1]] *)
Definition in_span (search_days : list datetime) (end_day : datetime) : option bool :=
  match search_days with
  | [] => None
  | d0 :: _ => Some (dt_leb d0 end_day && dt_leb end_day (last search_days d0))
  end.

(** [rate * (td.days + 1) / 365] *)
Definition prorate (rate : float) (start_date end_date : datetime) : float :=
  fdiv (fmul rate (of_int (timedelta_days end_date start_date + 1))) (of_int 365).

Section Treasury.

(** [trading.environment.trading_day_distance], the trading-calendar
    collaborator. *)
Variable trading_day_distance : datetime -> datetime -> option Z.

Definition search_day_distance (end_date dt : datetime) : res (option Z) :=
  match trading_day_distance dt end_date with
  | None => Ok None
  | Some tdd => if 0 <=? tdd then Ok (Some tdd) else Raise AssertionError
  end.

(** The [for prev_day in search_days[i - 1::-1]] loop: the first day with
    a rate, that rate and the distance of the day from [end_date]. *)
Fixpoint search_back (treasury_curves : curve_table) (treasury_duration : duration)
    (end_date : datetime) (days : list datetime)
    : res (option (datetime * float * option Z)) :=
  match days with
  | [] => Ok None
  | prev_day :: rest =>
      match get_treasury_rate treasury_curves treasury_duration prev_day with
      | Raise e => Raise e
      | Ok (Some rate) =>
          match search_day_distance end_date prev_day with
          | Raise e => Raise e
          | Ok search_dist => Ok (Some (prev_day, rate, search_dist))
          end
      | Ok None => search_back treasury_curves treasury_duration end_date rest
      end
  end.

(** The days the regression loop walks through. *)
Definition regression_days (treasury_curves : curve_table) (end_day : datetime)
    : list datetime :=
  let search_days := index_of treasury_curves in
  let i := searchsorted search_days end_day in
  slice_back search_days (Z.of_nat i - 1).

(** The outcome of the lookup at [end_day] itself. *)
Definition rate_at_end_day (treasury_curves : curve_table)
    (treasury_duration : duration) (end_day : datetime) : res (option float) :=
  if contains end_day treasury_curves
  then get_treasury_rate treasury_curves treasury_duration end_day
  else Ok None.

(** [search_dist is None or search_dist > 1] *)
Definition stale (search_dist : option Z) : bool :=
  match search_dist with
  | None => true
  | Some d => 1 <? d
  end.

Definition choose_treasury (treasury_curves : curve_table)
    (start_date end_date : datetime) : list warning * res float :=
  let treasury_duration := select_treasury_duration start_date end_date in
  let end_day := replace_midnight end_date in
  match rate_at_end_day treasury_curves treasury_duration end_day with
  | Raise e => ([], Raise e)
  | Ok (Some rate) => ([], Ok (prorate rate start_date end_date))
  | Ok None =>
      let search_days := index_of treasury_curves in
      match search_back treasury_curves treasury_duration end_date
              (regression_days treasury_curves end_day) with
      | Raise e => ([], Raise e)
      | Ok (Some (search_day, rate, search_dist)) =>
          if stale search_dist then
            match in_span search_days end_day with
            | None => ([], Raise IndexError)
            | Some true =>
                ([mkwarn end_date treasury_duration search_day],
                 Ok (prorate rate start_date end_date))
            | Some false => ([], Ok (prorate rate start_date end_date))
            end
          else ([], Ok (prorate rate start_date end_date))
      | Ok None => ([], Raise (NoRate end_date treasury_duration))
      end
  end.

End Treasury.

(** ** Rolling periods and the report *)

Record DailyReturn := mkDailyReturn { date : datetime; returns : float }.

Module Period.
(** Modelled from the spec: [RiskMetricsPeriod] is not defined in this
    file; a rolling period is the value object made of its start date,
    its end date and the two series it was given. *)
Record RiskMetricsPeriod := mk {
  start_date : datetime;
  end_date : datetime;
  returns : list DailyReturn;
  benchmark_returns : option (list DailyReturn)
}.
End Period.
Abbreviation RiskMetricsPeriod := Period.RiskMetricsPeriod.

(** The body of [while True]; [None] when the fuel runs out. *)
Fixpoint periods_loop (fuel : nat) (algorithm_returns : list DailyReturn)
    (benchmark_returns : option (list DailyReturn)) (months_per : Z)
    (the_end : datetime) (ends : list RiskMetricsPeriod) (cur_start : datetime)
    : option (list RiskMetricsPeriod) :=
  match fuel with
  | O => None
  | S fuel' =>
      let cur_end := sub_one_day (add_months cur_start months_per) in
      if dt_ltb the_end cur_end then Some ends
      else
        let cur_period_metrics :=
          Period.mk cur_start cur_end algorithm_returns benchmark_returns in
        periods_loop fuel' algorithm_returns benchmark_returns months_per the_end
          (ends ++ [cur_period_metrics]) (add_months cur_start 1)
  end.

Definition periods_in_range (fuel : nat) (algorithm_returns : list DailyReturn)
    (benchmark_returns : option (list DailyReturn)) (months_per : Z)
    (start end_ : datetime) : option (list RiskMetricsPeriod) :=
  let ends := [] in
  let cur_start := replace_day1 start in
  if (length algorithm_returns =? 0)%nat then Some ends
  else
    let the_end := sub_one_day (add_months (replace_day1 end_) 1) in
    periods_loop fuel algorithm_returns benchmark_returns months_per the_end
      ends cur_start.

(** Fuel that lets the loop of [periods_in_range] reach its [break]. *)
Definition enough_fuel (months_per : Z) (start end_ : datetime) : nat :=
  S (Z.to_nat (month_index end_ - month_index start - months_per + 2)).

Record SimulationParameters := mkSim { period_start : datetime; period_end : datetime }.

Record RiskReport := mkRiskReport {
  algorithm_returns : list DailyReturn;
  sim_params : SimulationParameters;
  benchmark_returns : option (list DailyReturn);
  created : Z;
  month_periods : list RiskMetricsPeriod;
  three_month_periods : list RiskMetricsPeriod;
  six_month_periods : list RiskMetricsPeriod;
  year_periods : list RiskMetricsPeriod
}.

(** [RiskReport.__init__]; [epoch_now] is the reading of the clock. *)
Definition RiskReport_init (fuel : nat) (epoch_now : Z)
    (algorithm_returns : list DailyReturn) (sim_params : SimulationParameters)
    (benchmark_returns : option (list DailyReturn)) : option RiskReport :=
  let '(start_date, end_date) :=
    match algorithm_returns with
    | [] => (period_start sim_params, period_end sim_params)
    | r0 :: _ => (date r0, date (last algorithm_returns r0))
    end in
  let periods := periods_in_range fuel algorithm_returns benchmark_returns in
  match periods 1 start_date end_date with
  | None => None
  | Some month_periods =>
  match periods 3 start_date end_date with
  | None => None
  | Some three_month_periods =>
  match periods 6 start_date end_date with
  | None => None
  | Some six_month_periods =>
  match periods 12 start_date end_date with
  | None => None
  | Some year_periods =>
      Some (mkRiskReport algorithm_returns sim_params benchmark_returns epoch_now
              month_periods three_month_periods six_month_periods year_periods)
  end end end end.

Section ReportExport.

(** The metrics dict of one period, produced by [RiskMetricsPeriod.to_dict]
    of the per-period component. *)
Variable metrics : Type.
Variable period_to_dict : RiskMetricsPeriod -> metrics.

Record report_dict := mkReportDict {
  one_month : list metrics;
  three_month : list metrics;
  six_month : list metrics;
  twelve_month : list metrics;
  created_at : Z
}.

Definition to_dict (self : RiskReport) : report_dict :=
  mkReportDict
    (map period_to_dict (month_periods self))
    (map period_to_dict (three_month_periods self))
    (map period_to_dict (six_month_periods self))
    (map period_to_dict (year_periods self))
    (created self).

End ReportExport.

(** ** Risk metric calculations *)

Section Sortino.

(** The array library's [sum] reduction and [zp_math.tolerant_equals];
    neither is defined in this file. *)
Variable np_sum : list float -> float.
Variable tolerant_equals : float -> float -> bool.

(** [(rets[rets < mar] - mar) ** 2] *)
Definition downside (rets : list float) (mar : float) : list float :=
  map (fun r => fmul (fsub r mar) (fsub r mar))
      (filter (fun r => fltb r mar) rets).

Definition sortino_ratio (algorithm_returns : list float)
    (algorithm_period_return mar : float) : float :=
  if (length algorithm_returns =? 0)%nat then zero
  else
    let rets := algorithm_returns in
    let dr := fsqrt (fdiv (np_sum (downside rets mar))
                          (of_int (Z.of_nat (length rets)))) in
    if tolerant_equals dr (of_int 0) then zero
    else fdiv (fsub algorithm_period_return mar) dr.

(** The downside deviation in the words of the specification: over the
    returns strictly below [mar], the squares of (return - mar) are summed,
    the sum is divided by the count of all returns, and the root is taken. *)
Definition downside_deviation (rets : list float) (mar : float) : float :=
  let below := filter (fun r => fltb r mar) rets in
  let squares := map (fun r => fmul (fsub r mar) (fsub r mar)) below in
  fsqrt (fdiv (np_sum squares) (of_int (Z.of_nat (length rets)))).

End Sortino.

(** Left-to-right summation, and the tolerance test of [zp_math]
    ([|a - b| <= atol + rtol * |b|] with both tolerances at 1e-6), used to
    run [sortino_ratio] on concrete arrays. *)
Definition sum_left (l : list float) : float := fold_left fadd l zero.

Definition tol : float := fdiv (of_int 1) (of_int 1000000).

Definition tolerant_equals_1e6 (a b : float) : bool :=
  fleb (fabs (fsub a b)) (fadd tol (fmul tol (fabs b))).

(** ** Closed form of the rolling windows *)

(** First and last day of the month with index [i], at time of day [t]. *)
Definition first_day_of (i t : Z) : datetime := mkdt (i / 12) (i mod 12 + 1) 1 t.

Definition last_day_of (i t : Z) : datetime :=
  mkdt (i / 12) (i mod 12 + 1) (days_in_month (i / 12) (i mod 12 + 1)) t.

(** The last day of the month [d] lies in, at the time of day of [d]. *)
Definition last_day_of_month (d : datetime) : datetime :=
  mkdt (year d) (month d) (days_in_month (year d) (month d)) (tod d).

(** The [n] windows of [months_per] months starting in the months
    [i], [i+1], ... *)
Definition windows (algorithm_returns : list DailyReturn)
    (benchmark_returns : option (list DailyReturn)) (months_per t i : Z)
    (n : nat) : list RiskMetricsPeriod :=
  map (fun k => Period.mk (first_day_of (i + Z.of_nat k) t)
                          (last_day_of (i + Z.of_nat k + months_per - 1) t)
                          algorithm_returns benchmark_returns)
      (seq 0 n).

(** The last month a window may end in: the month of [end_], or the one
    before it when the time of day of [start] is later than that of [end_]. *)
Definition last_window_month (start end_ : datetime) : Z :=
  if tod end_ <? tod start then month_index end_ - 1 else month_index end_.

(** Calendar months from the month of [start] through the month of [end_]. *)
Definition months_spanned (start end_ : datetime) : Z :=
  Z.max 0 (month_index end_ - month_index start + 1).

(** The strict order on calendar values, spelled out. *)
Definition lex_lt (a b : datetime) : Prop :=
  year a < year b \/
  (year a = year b /\
   (month a < month b \/
    (month a = month b /\
     (day a < day b \/ (day a = day b /\ tod a < tod b))))).

(** ** The table invariant and two rules in the words of the specification *)

(** Dates of the curve table are strictly increasing. *)
Definition sorted_table (treasury_curves : curve_table) : Prop :=
  StronglySorted (fun a b => dt_ltb a b = true) (index_of treasury_curves).

(** The backward search as the specification describes it: only stored
    dates at or before [end_day] are visited. *)
Definition regression_only_visits_earlier (treasury_curves : curve_table)
    (end_day : datetime) : Prop :=
  forall d, In d (regression_days treasury_curves end_day) -> dt_leb d end_day = true.

(** The staleness rule as the specification words it: after a match by
    regression, a warning is logged exactly when the match is stale and the
    matched date lies in the span of the table. *)
Definition staleness_rule_on_matched_date
    (trading_day_distance : datetime -> datetime -> option Z)
    (treasury_curves : curve_table) (start_date end_date : datetime) : Prop :=
  let term := select_treasury_duration start_date end_date in
  let end_day := replace_midnight end_date in
  forall search_day rate search_dist,
    rate_at_end_day treasury_curves term end_day = Ok None ->
    search_back trading_day_distance treasury_curves term end_date
      (regression_days treasury_curves end_day)
      = Ok (Some (search_day, rate, search_dist)) ->
    (fst (choose_treasury trading_day_distance treasury_curves start_date end_date) <> []
     <-> stale search_dist = true
         /\ in_span (index_of treasury_curves) search_day = Some true).

(** ** The other risk metric calculations and the export check *)

Section Sharpe.

Variable tolerant_equals : float -> float -> bool.

Definition sharpe_ratio (algorithm_volatility algorithm_return treasury_return : float)
    : float :=
  if tolerant_equals algorithm_volatility (of_int 0) then zero
  else fdiv (fsub algorithm_return treasury_return) algorithm_volatility.

End Sharpe.

Definition alpha (algorithm_period_return treasury_period_return
    benchmark_period_returns beta : float) : float :=
  fsub algorithm_period_return
    (fadd treasury_period_return
       (fmul beta (fsub benchmark_period_returns treasury_period_return))).

Module Entry.
Import String.

(** [np.isnan] and [np.isinf] on a double. *)
Definition isnan (x : float) : bool :=
  match x with S754_nan => true | _ => false end.

Definition isinf (x : float) : bool :=
  match x with S754_infinity _ => true | _ => false end.

(** [check_entry] on a numeric value. *)
Definition check_entry (key : string) (value : float) : bool :=
  if negb (String.eqb key "period_label"%string) then isnan value || isinf value
  else false.

End Entry.

(** The rate [get_treasury_rate] reads off a curve: the first one present
    from the bucket [term] on. *)
Definition rate_from (c : curve) (term : duration) : option float :=
  first_rate c (skipn (index term TREASURY_DURATIONS) TREASURY_DURATIONS).

(** The stored dates before [end_day], in index order. *)
Definition dates_before (treasury_curves : curve_table) (end_day : datetime)
    : list datetime :=
  filter (fun d => dt_ltb d end_day) (index_of treasury_curves).

Definition distance_negative : datetime -> datetime -> option Z := fun _ _ => Some (-3).

(** ** Sample data *)

Definition rate_2pct : float := fdiv (of_int 2) (of_int 100).
Definition rate_3pct : float := fdiv (of_int 3) (of_int 100).

Definition flat_curve (r : float) : curve := fun _ => Some r.
Definition no_curve : curve := fun _ => None.

(** Rate [r] from bucket [b] on, nothing for the shorter buckets. *)
Definition curve_from (b : duration) (r : float) : curve :=
  fun x => if (bucket_index b <=? bucket_index x)%nat then Some r else None.

(** A day of January 2013 at midnight, and at 14:30. *)
Definition jan (d : Z) : datetime := mkdt 2013 1 d 0.
Definition jan_1430 (d : Z) : datetime := mkdt 2013 1 d 52200000000.

Definition table_exact : curve_table :=
  [(jan 30, flat_curve rate_3pct); (jan 31, flat_curve rate_2pct)].

Definition table_longer : curve_table :=
  [(jan 30, flat_curve rate_2pct); (jan 31, curve_from d6month rate_3pct)].

Definition table_absent : curve_table := [(jan 2, no_curve); (jan 4, no_curve)].

Definition table_gap : curve_table :=
  [(jan 2, flat_curve rate_2pct); (jan 4, no_curve); (jan 8, flat_curve rate_3pct)].

Definition table_old : curve_table := [(jan 2, flat_curve rate_2pct)].

Definition table_late : curve_table := [(jan 10, flat_curve rate_2pct)].

Definition distance_unknown : datetime -> datetime -> option Z := fun _ _ => None.
Definition distance_two : datetime -> datetime -> option Z := fun _ _ => Some 2.
Definition distance_five : datetime -> datetime -> option Z := fun _ _ => Some 5.

(** A return series from 3 January to 29 December 2006, and one that
    lies within March 2006. *)
Definition series_2006 : list DailyReturn :=
  [mkDailyReturn (mkdt 2006 1 3 0) zero; mkDailyReturn (mkdt 2006 6 15 0) rate_2pct;
   mkDailyReturn (mkdt 2006 12 29 0) rate_3pct].

Definition series_march : list DailyReturn :=
  [mkDailyReturn (mkdt 2006 3 6 0) rate_2pct; mkDailyReturn (mkdt 2006 3 24 0) zero].

Definition sim_2006 : SimulationParameters :=
  mkSim (mkdt 2006 1 1 0) (mkdt 2006 12 31 0).

(** A rate for the bucket [b] alone. *)
Definition curve_only (b : duration) (r : float) : curve :=
  fun x => if duration_eqb b x then Some r else None.

(** Snapshots that hold a one-month rate and nothing longer, and a start
    date 45 days before 4 January 2013. *)
Definition table_short : curve_table :=
  [(jan 2, curve_only d1month rate_2pct); (jan 4, curve_only d1month rate_3pct)].

Definition nov_20 : datetime := mkdt 2012 11 20 0.

(** A series stamped at the close of the market in universal time: 21:00
    in January, 20:00 in June. *)
Definition close_winter : Z := 75600000000.
Definition close_summer : Z := 72000000000.

Definition series_half_2006 : list DailyReturn :=
  [mkDailyReturn (mkdt 2006 1 3 close_winter) zero;
   mkDailyReturn (mkdt 2006 3 15 close_winter) rate_2pct;
   mkDailyReturn (mkdt 2006 6 30 close_summer) rate_3pct].

(** * Properties *)

(** ** The order on calendar values *)

Section DatetimeOrder.

Lemma dt_compare_eq_iff a b : dt_compare a b = Eq <-> a = b.
Proof.
  unfold dt_compare. destruct a as [ya ma da ta], b as [yb mb db tb]; simpl.
  destruct (Z.compare_spec ya yb); try (split; [discriminate | intros E; inversion E; lia]).
  destruct (Z.compare_spec ma mb); try (split; [discriminate | intros E; inversion E; lia]).
  destruct (Z.compare_spec da db); try (split; [discriminate | intros E; inversion E; lia]).
  destruct (Z.compare_spec ta tb); try (split; [discriminate | intros E; inversion E; lia]).
  subst. split; reflexivity.
Qed.

Lemma dt_compare_lt_iff a b : dt_compare a b = Lt <-> lex_lt a b.
Proof.
  unfold dt_compare, lex_lt.
  destruct (Z.compare_spec (year a) (year b));
    destruct (Z.compare_spec (month a) (month b));
    destruct (Z.compare_spec (day a) (day b));
    destruct (Z.compare_spec (tod a) (tod b));
    split; intros; try discriminate; try reflexivity; lia.
Qed.

Lemma dt_compare_gt_iff a b : dt_compare a b = Gt <-> lex_lt b a.
Proof.
  unfold dt_compare, lex_lt.
  destruct (Z.compare_spec (year a) (year b));
    destruct (Z.compare_spec (month a) (month b));
    destruct (Z.compare_spec (day a) (day b));
    destruct (Z.compare_spec (tod a) (tod b));
    split; intros; try discriminate; try reflexivity; lia.
Qed.

Lemma dt_eqb_eq a b : dt_eqb a b = true <-> a = b.
Proof.
  unfold dt_eqb. rewrite <- dt_compare_eq_iff.
  destruct (dt_compare a b); split; congruence.
Qed.

Lemma dt_eqb_refl a : dt_eqb a a = true.
Proof. apply dt_eqb_eq. reflexivity. Qed.

Lemma dt_ltb_lt a b : dt_ltb a b = true <-> lex_lt a b.
Proof.
  unfold dt_ltb. rewrite <- dt_compare_lt_iff.
  destruct (dt_compare a b); split; congruence.
Qed.

Lemma dt_ltb_irrefl a : dt_ltb a a = false.
Proof.
  destruct (dt_ltb a a) eqn:E; [|reflexivity].
  apply dt_ltb_lt in E. unfold lex_lt in E. lia.
Qed.

Lemma dt_ltb_trans a b c : dt_ltb a b = true -> dt_ltb b c = true -> dt_ltb a c = true.
Proof. rewrite !dt_ltb_lt. unfold lex_lt. lia. Qed.

Lemma dt_leb_spec a b : dt_leb a b = true <-> a = b \/ dt_ltb a b = true.
Proof.
  unfold dt_leb, dt_ltb. rewrite <- dt_compare_eq_iff.
  destruct (dt_compare a b); split; intros; try tauto; try congruence.
  destruct H; congruence.
Qed.

Lemma dt_leb_ltb a b : dt_leb a b = negb (dt_ltb b a).
Proof.
  unfold dt_leb, dt_ltb.
  destruct (dt_compare a b) eqn:E.
  - apply dt_compare_eq_iff in E. subst.
    destruct (dt_compare b b) eqn:F; try reflexivity.
    apply dt_compare_lt_iff in F. unfold lex_lt in F. lia.
  - apply dt_compare_lt_iff in E.
    destruct (dt_compare b a) eqn:F; try reflexivity.
    apply dt_compare_lt_iff in F. unfold lex_lt in *. lia.
  - apply dt_compare_gt_iff in E. apply dt_compare_lt_iff in E.
    rewrite E. reflexivity.
Qed.

End DatetimeOrder.

(** ** Duration selection *)

Lemma bucket_index_monotone d1 d2 :
  d1 <= d2 -> (bucket_index (bucket_of_days d1) <= bucket_index (bucket_of_days d2))%nat.
Proof.
  intros H. unfold bucket_of_days.
  repeat match goal with
         | |- context [?a <=? ?b] => destruct (Z.leb_spec a b)
         end; try lia; vm_compute; lia.
Qed.

Lemma select_treasury_duration_days start_date end_date :
  select_treasury_duration start_date end_date
  = bucket_of_days (timedelta_days end_date start_date).
Proof. reflexivity. Qed.

(** C6. The bucket chosen by [select_treasury_duration] is the one the
    threshold table assigns to the elapsed whole days (31, 93, 186, 366,
    731, 1096, 1827, 2557, 3652, then the thirty-year bucket), and a pair of
    dates with no more elapsed days than another gets a bucket that is no
    later in [TREASURY_DURATIONS]. *)
Theorem select_treasury_duration_thresholds_monotone s1 e1 s2 e2 :
  select_treasury_duration s1 e1 = bucket_of_days (timedelta_days e1 s1) /\
  (timedelta_days e1 s1 <= timedelta_days e2 s2 ->
   (bucket_index (select_treasury_duration s1 e1)
    <= bucket_index (select_treasury_duration s2 e2))%nat).
Proof.
  split; [reflexivity|].
  intros H. rewrite !select_treasury_duration_days.
  now apply bucket_index_monotone.
Qed.

Lemma select_treasury_duration_thresholds_monotone_witness :
  timedelta_days (mkdt 2006 2 1 0) (mkdt 2006 1 1 0)
    <= timedelta_days (mkdt 2006 5 1 0) (mkdt 2006 1 1 0) /\
  select_treasury_duration (mkdt 2006 1 1 0) (mkdt 2006 2 1 0) = d1month /\
  select_treasury_duration (mkdt 2006 1 1 0) (mkdt 2006 5 1 0) = d6month /\
  (bucket_index (select_treasury_duration (mkdt 2006 1 1 0) (mkdt 2006 2 1 0))
   <= bucket_index (select_treasury_duration (mkdt 2006 1 1 0) (mkdt 2006 5 1 0)))%nat.
Proof.
  split; [vm_compute; discriminate|].
  split; [reflexivity|]. split; [reflexivity|].
  apply (proj2 (select_treasury_duration_thresholds_monotone
                  (mkdt 2006 1 1 0) (mkdt 2006 2 1 0)
                  (mkdt 2006 1 1 0) (mkdt 2006 5 1 0))).
  vm_compute; discriminate.
Defined.

(** ** Lookups in the curve table *)

Lemma skipn_index_durations t :
  exists rest, skipn (index t TREASURY_DURATIONS) TREASURY_DURATIONS = t :: rest.
Proof. destruct t; eexists; reflexivity. Qed.

Lemma first_rate_head c t r :
  c t = Some r ->
  first_rate c (skipn (index t TREASURY_DURATIONS) TREASURY_DURATIONS) = Some r.
Proof.
  intros H. destruct (skipn_index_durations t) as [rest ->].
  simpl. now rewrite H.
Qed.

Lemma first_rate_all_absent c ds :
  (forall b, In b ds -> c b = None) -> first_rate c ds = None.
Proof.
  induction ds as [|d ds IH]; intros H; simpl; [reflexivity|].
  rewrite (H d (or_introl eq_refl)). apply IH. intros b Hb. apply H. now right.
Qed.

Lemma first_rate_ext c c' ds :
  (forall b, In b ds -> c' b = c b) -> first_rate c' ds = first_rate c ds.
Proof.
  induction ds as [|d ds IH]; intros H; simpl; [reflexivity|].
  rewrite (H d (or_introl eq_refl)). destruct (c d); [reflexivity|].
  apply IH. intros b Hb. apply H. now right.
Qed.

(** A label of the scanned tail is at or after the target. *)
Lemma in_skipn_durations t b :
  In b (skipn (index t TREASURY_DURATIONS) TREASURY_DURATIONS) <->
  (bucket_index t <= bucket_index b)%nat.
Proof.
  destruct t, b; unfold bucket_index; simpl; split; intros H;
    first [ lia
          | solve [repeat (first [left; reflexivity | right])]
          | exfalso; intuition discriminate ].
Qed.

(** A scan that finds nothing has seen no rate from the target on. *)
Lemma first_rate_none_from c t :
  first_rate c (skipn (index t TREASURY_DURATIONS) TREASURY_DURATIONS) = None ->
  forall b, (bucket_index t <= bucket_index b)%nat -> c b = None.
Proof.
  intros H b Hb. apply in_skipn_durations in Hb. revert H Hb.
  induction (skipn (index t TREASURY_DURATIONS) TREASURY_DURATIONS) as [|d ds IH];
    simpl; [intros _ []|].
  destruct (c d) eqn:E; [discriminate|].
  intros H [<-|Hb]; auto.
Qed.

(** The scan returns the rate of the first label, from the target on,
    that has one. *)
Lemma first_rate_first_present c t b r :
  (bucket_index t <= bucket_index b)%nat ->
  c b = Some r ->
  (forall b', (bucket_index t <= bucket_index b' < bucket_index b)%nat -> c b' = None) ->
  first_rate c (skipn (index t TREASURY_DURATIONS) TREASURY_DURATIONS) = Some r.
Proof.
  intros Hle Hb Hnone.
  destruct t, b; unfold bucket_index in Hle, Hnone; simpl in Hle, Hnone;
    try lia; simpl;
    repeat (rewrite Hnone by lia);
    rewrite Hb; reflexivity.
Qed.

Lemma lookup_In day t c : lookup day t = Some c -> In (day, c) t.
Proof.
  induction t as [|[d c'] t IH]; simpl; [discriminate|].
  destruct (dt_eqb d day) eqn:E.
  - apply dt_eqb_eq in E. intros H. inversion H. subst. now left.
  - intros H. right. now apply IH.
Qed.

Lemma lookup_index day t : In day (index_of t) -> exists c, lookup day t = Some c.
Proof.
  induction t as [|[d c'] t IH]; simpl; [tauto|].
  intros [->|H].
  - rewrite dt_eqb_refl. eauto.
  - destruct (dt_eqb d day); eauto.
Qed.

Lemma sorted_lookup day c t :
  sorted_table t -> In (day, c) t -> lookup day t = Some c.
Proof.
  unfold sorted_table, index_of.
  induction t as [|[d c'] t IH]; simpl; intros Hs Hin; [tauto|].
  inversion Hs as [|? ? Hs' Hall]; subst.
  destruct Hin as [E|Hin].
  - inversion E. subst. now rewrite dt_eqb_refl.
  - destruct (dt_eqb d day) eqn:E; [|now apply IH].
    apply dt_eqb_eq in E. subst d.
    rewrite Forall_forall in Hall.
    assert (L : dt_ltb day day = true)
      by (apply Hall; change day with (fst (day, c)); now apply in_map).
    rewrite dt_ltb_irrefl in L. discriminate.
Qed.

(** ** The backward slice and the sorted search *)

Lemma firstn_In {A} (n : nat) (l : list A) x : In x (firstn n l) -> In x l.
Proof.
  intros H. rewrite <- (firstn_skipn n l). apply in_or_app. now left.
Qed.

Lemma slice_back_incl {A} (l : list A) s x : In x (slice_back l s) -> In x l.
Proof.
  unfold slice_back. intros H. apply in_rev in H. eapply firstn_In; eauto.
Qed.

Lemma slice_back_nil {A} s : slice_back (@nil A) s = [].
Proof. unfold slice_back. now rewrite firstn_nil. Qed.

(** A start of -1 wraps around to the last position: the whole list comes
    back, reversed. *)
Lemma slice_back_wraps {A} (l : list A) : slice_back l (-1) = rev l.
Proof.
  unfold slice_back. change (-1 <? 0) with true. cbv iota.
  destruct (Nat.eq_dec (length l) 0) as [E|E].
  - apply length_zero_iff_nil in E. subst. reflexivity.
  - destruct (Z.ltb_spec (-1 + Z.of_nat (length l)) 0); [lia|].
    destruct (Z.leb_spec (Z.of_nat (length l)) (-1 + Z.of_nat (length l))); [lia|].
    replace (Z.to_nat (-1 + Z.of_nat (length l) + 1)) with (length l) by lia.
    now rewrite firstn_all.
Qed.

Lemma slice_back_prefix {A} (l : list A) (i : nat) :
  (1 <= i <= length l)%nat -> slice_back l (Z.of_nat i - 1) = rev (firstn i l).
Proof.
  intros H. unfold slice_back.
  destruct (Z.ltb_spec (Z.of_nat i - 1) 0); [lia|].
  destruct (Z.ltb_spec (Z.of_nat i - 1) 0); [lia|].
  destruct (Z.leb_spec (Z.of_nat (length l)) (Z.of_nat i - 1)); [lia|].
  now replace (Z.to_nat (Z.of_nat i - 1 + 1)) with i by lia.
Qed.

Lemma searchsorted_le a v : (searchsorted a v <= length a)%nat.
Proof. induction a as [|x a IH]; simpl; [lia|]. destruct (dt_ltb x v); simpl; lia. Qed.

Lemma searchsorted_prefix_before a v d :
  In d (firstn (searchsorted a v) a) -> dt_ltb d v = true.
Proof.
  induction a as [|x a IH]; simpl; [tauto|].
  destruct (dt_ltb x v) eqn:E; simpl; [|tauto].
  intros [->|H]; auto.
Qed.

Lemma searchsorted_sorted_prefix a v d :
  StronglySorted (fun x y => dt_ltb x y = true) a ->
  In d a -> dt_ltb d v = true -> In d (firstn (searchsorted a v) a).
Proof.
  induction a as [|x a IH]; simpl; intros Hs Hin Hlt; [tauto|].
  inversion Hs as [|? ? Hs' Hall]; subst.
  destruct (dt_ltb x v) eqn:E; simpl.
  - destruct Hin as [->|Hin]; [now left|right; now apply IH].
  - destruct Hin as [->|Hin]; [congruence|].
    rewrite Forall_forall in Hall.
    rewrite (dt_ltb_trans x d v) in E; [discriminate|now apply Hall|assumption].
Qed.

(** On every table the walk covers the stored dates before [end_day]. *)
Lemma regression_days_cover t end_day d :
  sorted_table t -> In d (index_of t) -> dt_ltb d end_day = true ->
  In d (regression_days t end_day).
Proof.
  intros Hs Hin Hlt. unfold regression_days.
  pose proof (searchsorted_sorted_prefix _ _ _ Hs Hin Hlt) as Hp.
  pose proof (searchsorted_le (index_of t) end_day) as Hle.
  destruct (searchsorted (index_of t) end_day) as [|k] eqn:E; [destruct Hp|].
  rewrite slice_back_prefix by lia. now apply in_rev in Hp.
Qed.

(** When some stored date precedes [end_day], the walk stays before it. *)
Lemma regression_days_before t end_day d :
  (1 <= searchsorted (index_of t) end_day)%nat ->
  In d (regression_days t end_day) -> dt_ltb d end_day = true.
Proof.
  intros H1 Hin. unfold regression_days in Hin.
  pose proof (searchsorted_le (index_of t) end_day) as Hle.
  rewrite slice_back_prefix in Hin by lia.
  apply in_rev in Hin. eapply searchsorted_prefix_before; eauto.
Qed.

(** When no stored date precedes [end_day], the walk runs over the whole
    index, latest date first. *)
Lemma regression_days_wrap t end_day :
  searchsorted (index_of t) end_day = O ->
  regression_days t end_day = rev (index_of t).
Proof.
  intros H. unfold regression_days. rewrite H. apply slice_back_wraps.
Qed.

Lemma regression_days_incl t end_day d :
  In d (regression_days t end_day) -> In d (index_of t).
Proof. apply slice_back_incl. Qed.

(** ** Resolution of the treasury rate *)

Section TreasuryFacts.

Variable trading_day_distance : datetime -> datetime -> option Z.

Local Abbreviation search_back := (search_back trading_day_distance).
Local Abbreviation choose_treasury := (choose_treasury trading_day_distance).

Lemma get_treasury_rate_absent t term day c :
  lookup day t = Some c ->
  get_treasury_rate t term day = Ok None ->
  first_rate c (skipn (index term TREASURY_DURATIONS) TREASURY_DURATIONS) = None.
Proof.
  unfold get_treasury_rate. intros ->. intros H. now inversion H.
Qed.

Lemma get_treasury_rate_all_absent t term day :
  (forall d c b, In (d, c) t -> c b = None) ->
  In day (index_of t) ->
  get_treasury_rate t term day = Ok None.
Proof.
  intros Hnone Hin. unfold get_treasury_rate.
  destruct (lookup_index _ _ Hin) as [c Hc]. rewrite Hc.
  f_equal. apply first_rate_all_absent. intros b _.
  eapply Hnone. eapply lookup_In; eauto.
Qed.

Lemma search_back_exhausted t term end_date days :
  search_back t term end_date days = Ok None <->
  forall d, In d days -> get_treasury_rate t term d = Ok None.
Proof.
  induction days as [|d days IH]; simpl.
  - split; [intros _ ? []|reflexivity].
  - destruct (get_treasury_rate t term d) as [[rate|]|e] eqn:E.
    + split; intros H.
      * destruct (search_day_distance trading_day_distance end_date d); discriminate.
      * specialize (H d (or_introl eq_refl)). congruence.
    + rewrite IH. split; intros H.
      * intros d' [<-|Hd]; auto.
      * intros d' Hd. apply H. now right.
    + split; intros H; [discriminate|].
      specialize (H d (or_introl eq_refl)). congruence.
Qed.

Lemma search_back_found t term end_date days search_day rate search_dist :
  search_back t term end_date days = Ok (Some (search_day, rate, search_dist)) ->
  In search_day days /\
  get_treasury_rate t term search_day = Ok (Some rate) /\
  search_day_distance trading_day_distance end_date search_day = Ok search_dist.
Proof.
  induction days as [|d days IH]; simpl; [discriminate|].
  destruct (get_treasury_rate t term d) as [[r|]|e] eqn:E; try discriminate.
  - destruct (search_day_distance trading_day_distance end_date d) eqn:F;
      try discriminate.
    intros H. inversion H. subst. auto.
  - intros H. destruct (IH H) as (Hin & Hr & Hd). auto.
Qed.

Lemma rate_at_end_day_hit t term end_day c :
  lookup end_day t = Some c ->
  rate_at_end_day t term end_day
  = Ok (first_rate c (skipn (index term TREASURY_DURATIONS) TREASURY_DURATIONS)).
Proof.
  intros H. unfold rate_at_end_day, contains, get_treasury_rate. now rewrite H.
Qed.

Lemma rate_at_end_day_not_raise t term end_day e :
  rate_at_end_day t term end_day <> Raise e.
Proof.
  unfold rate_at_end_day, contains, get_treasury_rate.
  destruct (lookup end_day t); discriminate.
Qed.

Lemma stale_spec search_dist :
  stale search_dist = true <->
  search_dist = None \/ exists d, search_dist = Some d /\ 1 < d.
Proof.
  destruct search_dist as [d|]; simpl.
  - rewrite Z.ltb_lt. split.
    + intros H. right. eauto.
    + intros [H|[d' [H H']]]; [discriminate|]. inversion H. now subst.
  - split; auto.
Qed.

(** C4. With a rate [r] stored at [end_day] for the bucket the duration
    selector picks, the resolver returns [r * (d + 1) / 365], where [d] is
    the count of elapsed whole days from [start_date] to [end_date]; nothing
    is logged. *)
Theorem choose_treasury_exact_rate t start_date end_date c r :
  lookup (replace_midnight end_date) t = Some c ->
  c (select_treasury_duration start_date end_date) = Some r ->
  choose_treasury t start_date end_date
  = ([], Ok (fdiv (fmul r (of_int (timedelta_days end_date start_date + 1)))
                  (of_int 365))).
Proof.
  intros Hc Hr. unfold choose_treasury.
  rewrite (rate_at_end_day_hit _ _ _ _ Hc), (first_rate_head _ _ _ Hr).
  reflexivity.
Qed.

(** C3. When the snapshot at [end_day] has no rate for the target bucket
    but has one for a longer bucket, the resolver returns the rate of the
    first bucket after the target that has one, multiplied by (days + 1)
    and divided by 365 as for an exact hit; the outcome is the same for every snapshot that
    agrees with this one from the target bucket on, whatever it holds for
    shorter buckets. *)
Theorem choose_treasury_escalates t start_date end_date c b r :
  let term := select_treasury_duration start_date end_date in
  lookup (replace_midnight end_date) t = Some c ->
  c term = None ->
  (bucket_index term < bucket_index b)%nat ->
  c b = Some r ->
  (forall b', (bucket_index term <= bucket_index b' < bucket_index b)%nat ->
              c b' = None) ->
  choose_treasury t start_date end_date
  = ([], Ok (fdiv (fmul r (of_int (timedelta_days end_date start_date + 1))) (of_int 365)))
  /\ forall t' c',
       lookup (replace_midnight end_date) t' = Some c' ->
       (forall b', (bucket_index term <= bucket_index b')%nat -> c' b' = c b') ->
       choose_treasury t' start_date end_date
       = ([], Ok (fdiv (fmul r (of_int (timedelta_days end_date start_date + 1))) (of_int 365))).
Proof.
  intros term Hc _ Hlt Hb Hnone.
  assert (G : forall t' c',
             lookup (replace_midnight end_date) t' = Some c' ->
             (forall b', (bucket_index term <= bucket_index b')%nat -> c' b' = c b') ->
             choose_treasury t' start_date end_date
             = ([], Ok (fdiv (fmul r (of_int (timedelta_days end_date start_date + 1))) (of_int 365)))).
  { intros t' c' Hc' Hagree. unfold choose_treasury. fold term.
    rewrite (rate_at_end_day_hit _ _ _ _ Hc').
    rewrite (first_rate_first_present c' term b r); [reflexivity|lia| |].
    - rewrite Hagree by lia. exact Hb.
    - intros b' Hb'. rewrite Hagree by lia. now apply Hnone. }
  split; [|exact G]. apply (G t c Hc). reflexivity.
Qed.

(** The walk can only fail on the assertion of [search_day_distance]. *)
Lemma search_back_raises_assertion t term end_date days e :
  (forall d, In d days -> In d (index_of t)) ->
  search_back t term end_date days = Raise e -> e = AssertionError.
Proof.
  induction days as [|d days IH]; simpl; intros Hin; [discriminate|].
  unfold get_treasury_rate at 1.
  destruct (lookup_index d t (Hin d (or_introl eq_refl))) as [c ->].
  destruct (first_rate c _) as [rate|].
  - unfold search_day_distance.
    destruct (trading_day_distance d end_date) as [tdd|]; [|discriminate].
    destruct (0 <=? tdd); [discriminate|]. intros H. now inversion H.
  - apply IH. intros d' Hd'. apply Hin. now right.
Qed.

(** C2. On an empty table, and on a table whose snapshots have no rate
    for any of the ten buckets, resolution raises the no-rate error carrying
    the requested end date and the selected duration. Conversely, on a
    table with increasing dates, that error is raised only when no snapshot
    at or before [end_day] has a rate for the target bucket or a longer one. *)
Theorem choose_treasury_no_rate t start_date end_date :
  let term := select_treasury_duration start_date end_date in
  let end_day := replace_midnight end_date in
  ((t = [] \/ forall d c b, In (d, c) t -> c b = None) ->
   choose_treasury t start_date end_date = ([], Raise (NoRate end_date term)))
  /\
  (sorted_table t ->
   forall log dt tm,
     choose_treasury t start_date end_date = (log, Raise (NoRate dt tm)) ->
     dt = end_date /\ tm = term /\
     forall d c, In (d, c) t -> dt_leb d end_day = true ->
       forall b, (bucket_index term <= bucket_index b)%nat -> c b = None).
Proof.
  intros term end_day. split.
  - intros Hempty.
    assert (Hnone : forall d c b, In (d, c) t -> c b = None).
    { destruct Hempty as [->|H]; [intros ? ? ? []|exact H]. }
    unfold choose_treasury. fold term end_day.
    assert (R : rate_at_end_day t term end_day = Ok None).
    { unfold rate_at_end_day, contains.
      destruct (lookup end_day t) as [c|] eqn:E; [|reflexivity].
      unfold get_treasury_rate. rewrite E. f_equal.
      apply first_rate_all_absent. intros b _.
      eapply Hnone. eapply lookup_In; eauto. }
    rewrite R.
    assert (S : search_back t term end_date (regression_days t end_day) = Ok None).
    { apply search_back_exhausted. intros d Hd.
      apply get_treasury_rate_all_absent; [exact Hnone|].
      eapply regression_days_incl; eauto. }
    now rewrite S.
  - intros Hs log dt tm H. unfold choose_treasury in H. fold term end_day in H.
    destruct (rate_at_end_day t term end_day) as [[rate|]|e] eqn:R;
      try (inversion H; fail).
    + destruct (search_back t term end_date (regression_days t end_day))
        as [[[[sd rate] dist]|]|e] eqn:S.
      * destruct (stale dist); [destruct (in_span (index_of t) end_day) as [[|]|]|];
          inversion H.
      * inversion H. subst. split; [reflexivity|]. split; [reflexivity|].
        intros d c Hin Hle. apply first_rate_none_from.
        pose proof (sorted_lookup _ _ _ Hs Hin) as Hl.
        apply dt_leb_spec in Hle. destruct Hle as [->|Hlt].
        -- rewrite (rate_at_end_day_hit _ _ _ _ Hl) in R. now inversion R.
        -- eapply get_treasury_rate_absent; [exact Hl|].
           rewrite search_back_exhausted in S. apply S.
           apply regression_days_cover; auto.
           change d with (fst (d, c)). now apply in_map.
      * inversion H. subst e.
        assert (A : NoRate dt tm = AssertionError); [|discriminate A].
        eapply search_back_raises_assertion; [|exact S].
        intros d'. apply regression_days_incl.
    + exfalso. eapply rate_at_end_day_not_raise; eauto.
Qed.

(** C7 (amended). No warning is logged when the rate is found at [end_day]
    itself. When the rate is found by regression, the warning is logged
    exactly when the matched date is more than one trading day away from
    [end_date] (or the distance is unknown) and [end_day] itself lies
    between the first and the last date of the table; the warning names
    the end date, the duration and the matched date, and the rate of the
    matched date is returned either way. *)
Theorem choose_treasury_staleness_warning t start_date end_date :
  let term := select_treasury_duration start_date end_date in
  let end_day := replace_midnight end_date in
  (forall rate,
     rate_at_end_day t term end_day = Ok (Some rate) ->
     fst (choose_treasury t start_date end_date) = [])
  /\
  (forall search_day rate search_dist,
     rate_at_end_day t term end_day = Ok None ->
     search_back t term end_date (regression_days t end_day)
       = Ok (Some (search_day, rate, search_dist)) ->
     (fst (choose_treasury t start_date end_date) <> [] <->
      (search_dist = None \/ exists d, search_dist = Some d /\ 1 < d)
      /\ in_span (index_of t) end_day = Some true)
     /\ (fst (choose_treasury t start_date end_date) <> [] ->
         fst (choose_treasury t start_date end_date)
         = [mkwarn end_date term search_day])
     /\ snd (choose_treasury t start_date end_date)
        = Ok (prorate rate start_date end_date)).
Proof.
  intros term end_day. split.
  - intros rate R. unfold choose_treasury. fold term end_day. now rewrite R.
  - intros sd rate dist R S.
    rewrite <- stale_spec.
    assert (N : exists inside, in_span (index_of t) end_day = Some inside).
    { destruct (search_back_found _ _ _ _ _ _ _ S) as (Hin & _ & _).
      apply regression_days_incl in Hin.
      unfold in_span. destruct (index_of t); [destruct Hin|eauto]. }
    destruct N as [inside N].
    unfold choose_treasury. fold term end_day. rewrite R, S, N.
    destruct (stale dist), inside; simpl;
      (split; [split; [intros H; try (now destruct H); auto
                      |intros [H1 H2]; try discriminate]
              |split; [intros H; try reflexivity; now destruct H|reflexivity]]).
Qed.

End TreasuryFacts.

(** ** The resolver on sample tables *)

Lemma choose_treasury_exact_rate_witness :
  lookup (replace_midnight (jan_1430 31)) table_exact = Some (flat_curve rate_2pct) /\
  flat_curve rate_2pct (select_treasury_duration (jan 1) (jan_1430 31)) = Some rate_2pct /\
  timedelta_days (jan_1430 31) (jan 1) = 30 /\
  choose_treasury distance_two table_exact (jan 1) (jan_1430 31)
  = ([], Ok (fdiv (fmul rate_2pct (of_int (30 + 1))) (of_int 365))).
Proof.
  split; [reflexivity|]. split; [reflexivity|]. split; [reflexivity|].
  apply (choose_treasury_exact_rate distance_two table_exact (jan 1) (jan_1430 31)
           (flat_curve rate_2pct) rate_2pct); reflexivity.
Defined.

Lemma choose_treasury_escalates_witness :
  select_treasury_duration (jan 1) (jan_1430 31) = d1month /\
  curve_from d6month rate_3pct d1month = None /\
  curve_from d6month rate_3pct d3month = None /\
  curve_from d6month rate_3pct d6month = Some rate_3pct /\
  timedelta_days (jan_1430 31) (jan 1) = 30 /\
  choose_treasury distance_two table_longer (jan 1) (jan_1430 31)
  = ([], Ok (fdiv (fmul rate_3pct (of_int (30 + 1))) (of_int 365))).
Proof.
  split; [reflexivity|]. split; [reflexivity|]. split; [reflexivity|].
  split; [reflexivity|]. split; [reflexivity|].
  apply (choose_treasury_escalates distance_two table_longer (jan 1) (jan_1430 31)
           (curve_from d6month rate_3pct) d6month rate_3pct).
  - reflexivity.
  - reflexivity.
  - vm_compute. lia.
  - reflexivity.
  - intros b' H. destruct b'; vm_compute in H; try lia; reflexivity.
Defined.

Lemma choose_treasury_no_rate_witness :
  sorted_table table_absent /\
  choose_treasury distance_two table_absent (jan 1) (jan_1430 4)
  = ([], Raise (NoRate (jan_1430 4) d1month)) /\
  choose_treasury distance_two [] (jan 1) (jan_1430 4)
  = ([], Raise (NoRate (jan_1430 4) d1month)) /\
  sorted_table table_short /\
  choose_treasury distance_two table_short nov_20 (jan_1430 4)
  = ([], Raise (NoRate (jan_1430 4) d3month)) /\
  forall d c, In (d, c) table_short -> dt_leb d (jan 4) = true ->
    forall b, (bucket_index d3month <= bucket_index b)%nat -> c b = None.
Proof.
  assert (Hs : sorted_table table_absent)
    by (repeat constructor).
  assert (Hs' : sorted_table table_short)
    by (repeat constructor).
  assert (Ha : forall d c b, In (d, c) table_absent -> c b = None).
  { intros d c b [H|[H|[]]]; inversion H; reflexivity. }
  pose proof (proj1 (choose_treasury_no_rate distance_two table_absent
                       (jan 1) (jan_1430 4)) (or_intror Ha)) as H1.
  split; [exact Hs|]. split; [exact H1|]. split; [|split; [exact Hs'|split]].
  - apply (proj1 (choose_treasury_no_rate distance_two [] (jan 1) (jan_1430 4))).
    left. reflexivity.
  - reflexivity.
  - apply (proj2 (choose_treasury_no_rate distance_two table_short
                    nov_20 (jan_1430 4)) Hs' [] (jan_1430 4) d3month).
    reflexivity.
Defined.

Lemma choose_treasury_staleness_warning_witness :
  rate_at_end_day table_gap d1month (jan 4) = Ok None /\
  search_back distance_two table_gap d1month (jan_1430 4)
    (regression_days table_gap (jan 4))
  = Ok (Some (jan 2, rate_2pct, Some 2)) /\
  choose_treasury distance_two table_gap (jan 1) (jan_1430 4)
  = ([mkwarn (jan_1430 4) d1month (jan 2)],
     Ok (prorate rate_2pct (jan 1) (jan_1430 4))) /\
  (fst (choose_treasury distance_two table_gap (jan 1) (jan_1430 4)) <> [] <->
   (Some 2 = None \/ exists d, Some 2 = Some d /\ 1 < d)
   /\ in_span (index_of table_gap) (jan 4) = Some true).
Proof.
  split; [reflexivity|]. split; [reflexivity|]. split; [reflexivity|].
  apply (proj2 (choose_treasury_staleness_warning distance_two table_gap
                  (jan 1) (jan_1430 4)) (jan 2) rate_2pct (Some 2));
    reflexivity.
Defined.

(** The rule on the matched date fails beyond the end of the table: the
    rate of 2 January is used for 10 January, five trading days away, the
    matched date lies in the span of the table, and nothing is logged. *)
Lemma staleness_rule_on_matched_date_fails :
  ~ staleness_rule_on_matched_date distance_five table_old (jan 1) (jan_1430 10).
Proof.
  intros H.
  specialize (H (jan 2) rate_2pct (Some 5) eq_refl eq_refl).
  destruct H as [_ H].
  apply H; [split; reflexivity|reflexivity].
Qed.

(** C1, on a table whose only date, 10 January, is after the end day,
    5 January: the backward slice starts at position -1, which Python reads
    as the last position, so the walk visits 10 January and the resolver
    returns its rate instead of raising the no-rate error. *)
Theorem choose_treasury_wraps_to_later_date :
  sorted_table table_late /\
  dt_ltb (jan 5) (jan 10) = true /\
  searchsorted (index_of table_late) (jan 5) = O /\
  regression_days table_late (jan 5) = [jan 10] /\
  ~ regression_only_visits_earlier table_late (jan 5) /\
  choose_treasury distance_unknown table_late (jan 1) (jan_1430 5)
  = ([], Ok (prorate rate_2pct (jan 1) (jan_1430 5))) /\
  forall trading_day_distance,
    snd (choose_treasury trading_day_distance table_late (jan 1) (jan_1430 5))
    <> Raise (NoRate (jan_1430 5) d1month).
Proof.
  split; [repeat constructor|].
  split; [reflexivity|]. split; [reflexivity|]. split; [reflexivity|].
  split.
  - intros H. specialize (H (jan 10) (or_introl eq_refl)). discriminate H.
  - split; [reflexivity|].
    intros tdd. unfold choose_treasury.
    change (rate_at_end_day table_late
              (select_treasury_duration (jan 1) (jan_1430 5))
              (replace_midnight (jan_1430 5))) with (@Ok (option float) None).
    cbv iota beta.
    change (regression_days table_late (replace_midnight (jan_1430 5)))
      with [jan 10].
    simpl search_back.
    change (get_treasury_rate table_late
              (select_treasury_duration (jan 1) (jan_1430 5)) (jan 10))
      with (Ok (Some rate_2pct)).
    cbv iota beta. unfold search_day_distance.
    destruct (tdd (jan 10) (jan_1430 5)) as [d|].
    + destruct (0 <=? d); [|simpl; discriminate].
      destruct (stale (Some d)); [|simpl; discriminate].
      change (in_span (index_of table_late) (replace_midnight (jan_1430 5)))
        with (Some false).
      simpl; discriminate.
    + change (stale None) with true. cbv iota.
      change (in_span (index_of table_late) (replace_midnight (jan_1430 5)))
        with (Some false).
      simpl; discriminate.
Qed.

(** ** Tables that start after the end day *)

Section LaterTables.

Variable trading_day_distance : datetime -> datetime -> option Z.

Lemma choose_treasury_no_rate_inv t start_date end_date log dt tm :
  choose_treasury trading_day_distance t start_date end_date
    = (log, Raise (NoRate dt tm)) ->
  search_back trading_day_distance t
    (select_treasury_duration start_date end_date) end_date
    (regression_days t (replace_midnight end_date)) = Ok None.
Proof.
  unfold choose_treasury. intros H.
  destruct (rate_at_end_day t _ _) as [[rate|]|e] eqn:R; try (inversion H; fail).
  - destruct (search_back trading_day_distance t _ end_date _)
      as [[[[sd rate] dist]|]|e] eqn:S; [|reflexivity|].
    + destruct (stale dist);
        [destruct (in_span (index_of t) _) as [[|]|]|]; inversion H.
    + inversion H. subst e.
      assert (A : NoRate dt tm = AssertionError); [|discriminate A].
      eapply search_back_raises_assertion; [|exact S].
      intros d'. apply regression_days_incl.
  - exfalso. eapply rate_at_end_day_not_raise; eauto.
Qed.

(** When the earliest stored date is not before [end_day], the walk goes
    through every stored date, and the no-rate error is raised only if no
    snapshot of the whole table, however late, has a usable rate. *)
Lemma choose_treasury_later_table t start_date end_date d0 c0 rest :
  t = (d0, c0) :: rest ->
  sorted_table t ->
  dt_ltb d0 (replace_midnight end_date) = false ->
  regression_days t (replace_midnight end_date) = rev (index_of t) /\
  forall log dt tm,
    choose_treasury trading_day_distance t start_date end_date
      = (log, Raise (NoRate dt tm)) ->
    forall d c, In (d, c) t ->
      first_rate c (skipn (index (select_treasury_duration start_date end_date)
                             TREASURY_DURATIONS) TREASURY_DURATIONS) = None.
Proof.
  intros Et Hs Hd0.
  assert (W : regression_days t (replace_midnight end_date) = rev (index_of t)).
  { apply regression_days_wrap. subst t. simpl. now rewrite Hd0. }
  split; [exact W|].
  intros log dt tm H d c Hin.
  apply choose_treasury_no_rate_inv in H. rewrite W in H.
  rewrite search_back_exhausted in H.
  eapply get_treasury_rate_absent; [apply sorted_lookup; eauto|].
  apply H. apply -> in_rev. change d with (fst (d, c)). now apply in_map.
Qed.

End LaterTables.

(** ** Month arithmetic *)

Lemma days_in_month_ge_28 y m : 28 <= days_in_month y m <= 31.
Proof.
  unfold days_in_month.
  destruct (m =? 2); [destruct (is_leap y); lia|].
  destruct ((m =? 4) || (m =? 6) || (m =? 9) || (m =? 11)); lia.
Qed.

Lemma month_index_first_day_of i t : month_index (first_day_of i t) = i.
Proof.
  unfold month_index, first_day_of; simpl.
  pose proof (Z.div_mod i 12). lia.
Qed.

Lemma first_day_of_month_range i t : 1 <= month (first_day_of i t) <= 12.
Proof. simpl. pose proof (Z.mod_pos_bound i 12). lia. Qed.

Lemma last_day_of_month_range i t : 1 <= month (last_day_of i t) <= 12.
Proof. simpl. pose proof (Z.mod_pos_bound i 12). lia. Qed.

Lemma month_index_last_day_of i t : month_index (last_day_of i t) = i.
Proof.
  unfold month_index, last_day_of; simpl.
  pose proof (Z.div_mod i 12). lia.
Qed.

Lemma month_index_div d : 1 <= month d <= 12 -> month_index d / 12 = year d.
Proof.
  intros H. unfold month_index.
  symmetry. apply (Z.div_unique _ 12 (year d) (month d - 1)); lia.
Qed.

Lemma month_index_mod d : 1 <= month d <= 12 -> month_index d mod 12 + 1 = month d.
Proof.
  intros H. unfold month_index.
  rewrite <- (Z.mod_unique _ 12 (year d) (month d - 1)); lia.
Qed.

Lemma replace_day1_first_day_of d :
  1 <= month d <= 12 -> replace_day1 d = first_day_of (month_index d) (tod d).
Proof.
  intros H. unfold replace_day1, first_day_of.
  now rewrite month_index_div, month_index_mod.
Qed.

Lemma last_day_of_month_last_day_of d :
  1 <= month d <= 12 -> last_day_of_month d = last_day_of (month_index d) (tod d).
Proof.
  intros H. unfold last_day_of_month, last_day_of.
  now rewrite month_index_div, month_index_mod.
Qed.

(** The month reached is the one whose index is [n] further. *)
Lemma shifted_year_month_index y m n :
  1 <= m <= 12 ->
  shifted_year_month y m n
  = ((y * 12 + (m - 1) + n) / 12, (y * 12 + (m - 1) + n) mod 12 + 1).
Proof.
  intros Hm. unfold shifted_year_month, normalized_months.
  destruct n as [|p|p]; cbn [Z.abs Z.sgn].
  - cbn. destruct (Z.ltb_spec 12 (m + 0)); [lia|].
    destruct (Z.ltb_spec (m + 0) 1); [lia|].
    f_equal; Z.div_mod_to_equations; lia.
  - destruct (Z.ltb_spec 11 (Z.pos p)).
    + rewrite !Z.mul_1_l.
      destruct (Z.ltb_spec 12 (m + Z.pos p mod 12));
        [|destruct (Z.ltb_spec (m + Z.pos p mod 12) 1)];
        f_equal; Z.div_mod_to_equations; lia.
    + destruct (Z.ltb_spec 12 (m + Z.pos p));
        [|destruct (Z.ltb_spec (m + Z.pos p) 1)];
        f_equal; Z.div_mod_to_equations; lia.
  - destruct (Z.ltb_spec 11 (Z.pos p)).
    + destruct (Z.ltb_spec 12 (m + -1 * (Z.pos p mod 12)));
        [|destruct (Z.ltb_spec (m + -1 * (Z.pos p mod 12)) 1)];
        f_equal; Z.div_mod_to_equations; lia.
    + destruct (Z.ltb_spec 12 (m + Z.neg p));
        [|destruct (Z.ltb_spec (m + Z.neg p) 1)];
        f_equal; Z.div_mod_to_equations; lia.
Qed.

Lemma add_months_month_index d n :
  1 <= month d <= 12 ->
  month_index (add_months d n) = month_index d + n /\
  1 <= month (add_months d n) <= 12 /\
  tod (add_months d n) = tod d.
Proof.
  intros H. unfold add_months.
  rewrite (shifted_year_month_index _ _ _ H). fold (month_index d).
  unfold month_index at 1. simpl.
  pose proof (Z.div_mod (month_index d + n) 12).
  pose proof (Z.mod_pos_bound (month_index d + n) 12). lia.
Qed.

Lemma add_months_first_day_of i t n :
  add_months (first_day_of i t) n = first_day_of (i + n) t.
Proof.
  unfold add_months.
  rewrite (shifted_year_month_index _ _ _ (first_day_of_month_range i t)).
  fold (month_index (first_day_of i t)). rewrite month_index_first_day_of.
  unfold first_day_of. cbn [day tod]. f_equal.
  pose proof (days_in_month_ge_28 ((i + n) / 12) ((i + n) mod 12 + 1)). lia.
Qed.

(** Taking a day off lowers the ordinal of a valid date by one. *)
Lemma sub_one_day_toordinal d :
  valid d -> toordinal (sub_one_day d) = toordinal d - 1.
Proof.
  intros (Hm & Hd & _). unfold sub_one_day, toordinal.
  destruct d as [y m dd t]. cbn [year month day tod] in *.
  destruct (Z.ltb_spec 1 dd); [cbn [year month day]; lia|].
  assert (dd = 1) by lia. subst dd.
  destruct (Z.ltb_spec 1 m); cbn [year month day].
  - assert (M : m = 2 \/ m = 3 \/ m = 4 \/ m = 5 \/ m = 6 \/ m = 7 \/ m = 8 \/
                m = 9 \/ m = 10 \/ m = 11 \/ m = 12) by lia.
    unfold days_before_month, days_in_month.
    repeat (destruct M as [->|M]; [destruct (is_leap y); simpl; lia|]).
    subst m. destruct (is_leap y); simpl; lia.
  - assert (m = 1) by lia. subst m.
    unfold days_before_year, days_before_month, is_leap.
    change (2 <? 12) with true. change (2 <? 1) with false. cbn [andb].
    replace (y - 1 - 1) with (y - 2) by lia.
    destruct (Z.eqb_spec ((y - 1) mod 4) 0);
      destruct (Z.eqb_spec ((y - 1) mod 100) 0);
      destruct (Z.eqb_spec ((y - 1) mod 400) 0);
      cbn [andb orb negb]; Z.div_mod_to_equations; lia.
Qed.

Lemma sub_one_day_first_day_of i t :
  sub_one_day (first_day_of i t) = last_day_of (i - 1) t.
Proof.
  unfold sub_one_day, first_day_of, last_day_of. simpl.
  pose proof (Z.mod_pos_bound i 12 ltac:(lia)) as Hb.
  destruct (Z.ltb_spec 1 (i mod 12 + 1)) as [H|H].
  - assert (E1 : (i - 1) / 12 = i / 12)
      by (symmetry; apply (Z.div_unique _ 12 _ (i mod 12 - 1)); [lia|];
          pose proof (Z.div_mod i 12); lia).
    assert (E2 : (i - 1) mod 12 = i mod 12 - 1)
      by (symmetry; apply (Z.mod_unique _ 12 (i / 12)); [lia|];
          pose proof (Z.div_mod i 12); lia).
    rewrite E1, E2.
    replace (i mod 12 - 1 + 1) with (i mod 12 + 1 - 1) by lia. reflexivity.
  - assert (E0 : i mod 12 = 0) by lia.
    assert (E1 : (i - 1) / 12 = i / 12 - 1)
      by (symmetry; apply (Z.div_unique _ 12 _ 11); [lia|];
          pose proof (Z.div_mod i 12); lia).
    assert (E2 : (i - 1) mod 12 = 11)
      by (symmetry; apply (Z.mod_unique _ 12 (i / 12 - 1)); [lia|];
          pose proof (Z.div_mod i 12); lia).
    rewrite E1, E2. reflexivity.
Qed.

Lemma last_day_of_is_last i t : is_last_of_month (last_day_of i t).
Proof. reflexivity. Qed.

Lemma first_day_of_is_first i t : is_first_of_month (first_day_of i t).
Proof. reflexivity. Qed.

(** Months compare like their indices. *)
Lemma month_index_lt_iff a b :
  1 <= month a <= 12 -> 1 <= month b <= 12 ->
  (month_index a < month_index b <->
   year a < year b \/ (year a = year b /\ month a < month b)).
Proof. unfold month_index. lia. Qed.

Lemma month_index_inj i j : i / 12 = j / 12 -> i mod 12 + 1 = j mod 12 + 1 -> i = j.
Proof.
  intros H1 H2. pose proof (Z.div_mod i 12). pose proof (Z.div_mod j 12). lia.
Qed.

Lemma dt_ltb_last_day_of j i te ts :
  dt_ltb (last_day_of j te) (last_day_of i ts)
  = (j <? i) || ((j =? i) && (te <? ts)).
Proof.
  destruct (dt_ltb (last_day_of j te) (last_day_of i ts)) eqn:E.
  - apply dt_ltb_lt in E. unfold lex_lt in E.
    pose proof (month_index_lt_iff (last_day_of j te) (last_day_of i ts)
                  (last_day_of_month_range _ _) (last_day_of_month_range _ _)) as M.
    rewrite !month_index_last_day_of in M.
    symmetry. apply orb_true_iff. rewrite andb_true_iff, Z.ltb_lt, Z.eqb_eq, Z.ltb_lt.
    destruct (Z.lt_ge_cases j i) as [Hji|Hji]; [now left|right].
    assert (Hn : ~ j < i) by lia. rewrite M in Hn.
    simpl in E, Hn.
    assert (Ey : j / 12 = i / 12) by lia.
    assert (Em : j mod 12 + 1 = i mod 12 + 1) by lia.
    pose proof (month_index_inj _ _ Ey Em) as ->. split; [reflexivity|].
    lia.
  - symmetry. apply orb_false_iff. rewrite andb_false_iff, Z.ltb_ge, Z.eqb_neq, Z.ltb_ge.
    assert (N : ~ lex_lt (last_day_of j te) (last_day_of i ts)).
    { intros L. apply dt_ltb_lt in L. congruence. }
    pose proof (month_index_lt_iff (last_day_of j te) (last_day_of i ts)
                  (last_day_of_month_range _ _) (last_day_of_month_range _ _)) as M.
    rewrite !month_index_last_day_of in M.
    unfold lex_lt in N. simpl in N, M.
    split; [lia|].
    destruct (Z.eq_dec j i) as [->|Hne]; [right|left; exact Hne].
    lia.
Qed.

Lemma dt_ltb_first_day_of i j t : i < j -> dt_ltb (first_day_of i t) (first_day_of j t) = true.
Proof.
  intros H. apply dt_ltb_lt. unfold lex_lt.
  pose proof (proj1 (month_index_lt_iff (first_day_of i t) (first_day_of j t)
                  (first_day_of_month_range _ _) (first_day_of_month_range _ _))) as M.
  rewrite !month_index_first_day_of in M. specialize (M H). tauto.
Qed.

(** ** The loop of [periods_in_range] *)

Section Periods.

Variable algorithm_returns : list DailyReturn.
Variable benchmark_returns : option (list DailyReturn).
Variable months_per : Z.

Local Abbreviation windows_of := (windows algorithm_returns benchmark_returns months_per).

Lemma windows_succ t i n :
  windows_of t i (S n)
  = Period.mk (first_day_of i t) (last_day_of (i + months_per - 1) t)
              algorithm_returns benchmark_returns
    :: windows_of t (i + 1) n.
Proof.
  unfold windows. simpl. f_equal.
  - now rewrite Z.add_0_r.
  - rewrite <- seq_shift, map_map. apply map_ext. intros k.
    f_equal; f_equal; lia.
Qed.

Lemma windows_length t i n : length (windows_of t i n) = n.
Proof. unfold windows. now rewrite length_map, length_seq. Qed.

Lemma windows_nth t n : forall i k p,
  nth_error (windows_of t i n) k = Some p ->
  (k < n)%nat /\
  p = Period.mk (first_day_of (i + Z.of_nat k) t)
                (last_day_of (i + Z.of_nat k + months_per - 1) t)
                algorithm_returns benchmark_returns.
Proof.
  induction n as [|n IH]; intros i k p H.
  - destruct k; discriminate.
  - rewrite windows_succ in H. destruct k as [|k]; simpl in H.
    + inversion H. split; [lia|]. now rewrite Z.add_0_r.
    + destruct (IH _ _ _ H) as [Hk ->]. split; [lia|].
      f_equal; f_equal; lia.
Qed.

Lemma windows_In t i n p :
  In p (windows_of t i n) ->
  exists k, 0 <= k < Z.of_nat n /\
    p = Period.mk (first_day_of (i + k) t) (last_day_of (i + k + months_per - 1) t)
                  algorithm_returns benchmark_returns.
Proof.
  intros H. apply In_nth_error in H. destruct H as [k H].
  apply windows_nth in H. destruct H as [Hk ->].
  exists (Z.of_nat k). split; [lia|reflexivity].
Qed.

(** More fuel does not change a result. *)
Lemma periods_loop_more_fuel the_end fuel : forall ends cur_start l,
  periods_loop fuel algorithm_returns benchmark_returns months_per the_end ends cur_start
    = Some l ->
  periods_loop (S fuel) algorithm_returns benchmark_returns months_per the_end ends cur_start
    = Some l.
Proof.
  induction fuel as [|fuel IH]; intros ends cur_start l H; [discriminate|].
  simpl in H. change (periods_loop (S (S fuel))) with
    (fun a b m e ends cs =>
       let cur_end := sub_one_day (add_months cs m) in
       if dt_ltb e cur_end then Some ends
       else periods_loop (S fuel) a b m e (ends ++ [Period.mk cs cur_end a b])
              (add_months cs 1)).
  cbv beta zeta.
  destruct (dt_ltb the_end (sub_one_day (add_months cur_start months_per)));
    [exact H|]. now apply IH.
Qed.

(** From the month [i] on, the loop emits one window per month while the
    window ends in a month up to [last]. *)
Lemma periods_loop_closed_form j te ts n : forall fuel i ends,
  Z.of_nat n
  = Z.max 0 ((if te <? ts then j - 1 else j) - i - months_per + 2) ->
  (n < fuel)%nat ->
  periods_loop fuel algorithm_returns benchmark_returns months_per
    (last_day_of j te) ends (first_day_of i ts)
  = Some (ends ++ windows_of ts i n).
Proof.
  induction n as [|n IH]; intros fuel i ends Hn Hfuel;
    (destruct fuel as [|fuel]; [lia|]); simpl;
    rewrite add_months_first_day_of, sub_one_day_first_day_of,
            dt_ltb_last_day_of.
  - replace ((j <? i + months_per - 1) || (j =? i + months_per - 1) && (te <? ts))
      with true.
    + unfold windows. simpl. now rewrite app_nil_r.
    + symmetry. apply orb_true_iff.
      rewrite andb_true_iff, !Z.ltb_lt, Z.eqb_eq.
      destruct (Z.ltb_spec te ts); lia.
  - replace ((j <? i + months_per - 1) || (j =? i + months_per - 1) && (te <? ts))
      with false.
    + rewrite add_months_first_day_of, IH; [|destruct (te <? ts); lia|lia].
      rewrite windows_succ, <- app_assoc. reflexivity.
    + symmetry. apply orb_false_iff.
      rewrite andb_false_iff, Z.ltb_ge, Z.eqb_neq, Z.ltb_ge.
      destruct (Z.ltb_spec te ts); lia.
Qed.

(** The result of [periods_in_range] on a series that is not empty. *)
Lemma periods_in_range_closed_form start end_ fuel :
  algorithm_returns <> [] ->
  1 <= month start <= 12 -> 1 <= month end_ <= 12 ->
  (enough_fuel months_per start end_ <= fuel)%nat ->
  periods_in_range fuel algorithm_returns benchmark_returns months_per start end_
  = Some (windows_of (tod start) (month_index start)
            (Z.to_nat (last_window_month start end_ - month_index start
                       - months_per + 2))).
Proof.
  intros Hne Hs He Hfuel. unfold periods_in_range.
  destruct algorithm_returns as [|r rs] eqn:E; [congruence|].
  rewrite <- E. replace (length algorithm_returns =? 0)%nat with false
    by (rewrite E; reflexivity).
  rewrite (replace_day1_first_day_of end_ He), add_months_first_day_of,
          sub_one_day_first_day_of, (replace_day1_first_day_of start Hs).
  replace (month_index end_ + 1 - 1) with (month_index end_) by lia.
  rewrite (periods_loop_closed_form _ _ _
             (Z.to_nat (last_window_month start end_ - month_index start
                        - months_per + 2))).
  - reflexivity.
  - unfold last_window_month. destruct (tod end_ <? tod start); lia.
  - unfold enough_fuel, last_window_month in *.
    destruct (tod end_ <? tod start); lia.
Qed.

End Periods.

(** ** Rolling periods *)

(** C5. For a series that is not empty and any window length, the loop of
    [periods_in_range] ends, and each period it emits starts on the first
    day of a month and ends on the last day of a month, no later than the
    last day of the month of the series' end; each period starts exactly
    one month after the one before it. *)
Theorem periods_in_range_month_aligned rets bench months_per start end_ :
  rets <> [] ->
  1 <= month start <= 12 ->
  1 <= month end_ <= 12 ->
  exists ends,
    (forall fuel, (enough_fuel months_per start end_ <= fuel)%nat ->
       periods_in_range fuel rets bench months_per start end_ = Some ends) /\
    (forall p, In p ends ->
       is_first_of_month (Period.start_date p) /\
       1 <= month (Period.start_date p) <= 12 /\
       is_last_of_month (Period.end_date p) /\
       1 <= month (Period.end_date p) <= 12 /\
       month_index (Period.end_date p) <= month_index end_ /\
       dt_leb (Period.end_date p) (last_day_of_month end_) = true) /\
    (forall k p q,
       nth_error ends k = Some p -> nth_error ends (S k) = Some q ->
       Period.start_date q = add_months (Period.start_date p) 1 /\
       month_index (Period.start_date q) = month_index (Period.start_date p) + 1 /\
       dt_ltb (Period.start_date p) (Period.start_date q) = true).
Proof.
  intros Hne Hs He.
  eexists. split; [|split].
  - intros fuel Hfuel. now apply periods_in_range_closed_form.
  - intros p Hp. apply windows_In in Hp. destruct Hp as (k & Hk & ->).
    cbn [Period.start_date Period.end_date].
    split; [reflexivity|]. split; [apply first_day_of_month_range|].
    split; [reflexivity|]. split; [apply last_day_of_month_range|].
    assert (Hidx : month_index start + k + months_per - 1 <= last_window_month start end_)
      by lia.
    rewrite month_index_last_day_of.
    split; [unfold last_window_month in Hidx; destruct (tod end_ <? tod start); lia|].
    rewrite dt_leb_ltb, (last_day_of_month_last_day_of end_ He), dt_ltb_last_day_of.
    apply negb_true_iff, orb_false_iff.
    rewrite andb_false_iff, Z.ltb_ge, Z.eqb_neq, Z.ltb_ge.
    unfold last_window_month in Hidx. destruct (Z.ltb_spec (tod end_) (tod start)); lia.
  - intros k p q Hp Hq.
    apply windows_nth in Hp, Hq. destruct Hp as [_ ->], Hq as [_ ->].
    cbn [Period.start_date Period.end_date].
    rewrite add_months_first_day_of, !month_index_first_day_of.
    replace (month_index start + Z.of_nat (S k))
      with (month_index start + Z.of_nat k + 1) by lia.
    split; [reflexivity|]. split; [reflexivity|].
    apply dt_ltb_first_day_of. lia.
Qed.

(** X18. For a series that is not empty, whose first date is at a time of
    day no later than that of its last date (as with dates without a time
    or at midnight), and a window of [months_per >= 1] months,
    [periods_in_range] yields max(0, N - months_per + 1) periods, where N
    counts the months from that of the first date through that of the last;
    the k-th period starts on the first day of the month k months after the
    month of the first date. *)
Theorem periods_in_range_count rets bench months_per start end_ :
  rets <> [] ->
  1 <= month start <= 12 ->
  1 <= month end_ <= 12 ->
  1 <= months_per ->
  tod start <= tod end_ ->
  exists ends,
    (forall fuel, (enough_fuel months_per start end_ <= fuel)%nat ->
       periods_in_range fuel rets bench months_per start end_ = Some ends) /\
    Z.of_nat (length ends) = Z.max 0 (months_spanned start end_ - months_per + 1) /\
    (forall k p, nth_error ends k = Some p ->
       Period.start_date p = add_months (replace_day1 start) (Z.of_nat k) /\
       is_first_of_month (Period.start_date p) /\
       month_index (Period.start_date p) = month_index start + Z.of_nat k).
Proof.
  intros Hne Hs He Hm Ht.
  eexists. split; [|split].
  - intros fuel Hfuel. now apply periods_in_range_closed_form.
  - rewrite windows_length. unfold months_spanned, last_window_month.
    destruct (Z.ltb_spec (tod end_) (tod start)); lia.
  - intros k p Hp. apply windows_nth in Hp. destruct Hp as [_ ->].
    cbn [Period.start_date Period.end_date].
    rewrite (replace_day1_first_day_of start Hs), add_months_first_day_of,
            month_index_first_day_of.
    repeat split.
Qed.

(** C8. On an empty series [periods_in_range] returns the empty list for
    every window length, every pair of bounds and any fuel, and the report
    built from an empty series exports four empty collections. *)
Theorem empty_series_empty_report fuel bench months_per start end_ :
  periods_in_range fuel [] bench months_per start end_ = Some [] /\
  forall epoch_now sim (metrics : Type) (period_to_dict : RiskMetricsPeriod -> metrics),
  exists report,
    RiskReport_init fuel epoch_now [] sim bench = Some report /\
    month_periods report = [] /\ three_month_periods report = [] /\
    six_month_periods report = [] /\ year_periods report = [] /\
    to_dict metrics period_to_dict report = mkReportDict metrics [] [] [] [] epoch_now.
Proof.
  split; [reflexivity|].
  intros epoch_now sim metrics period_to_dict.
  eexists. split; [reflexivity|]. repeat split.
Qed.

Lemma periods_in_range_month_aligned_witness :
  exists ends,
    periods_in_range 20 series_2006 None 3 (mkdt 2006 1 3 0) (mkdt 2006 12 29 0)
      = Some ends /\
    (forall p, In p ends ->
       is_first_of_month (Period.start_date p) /\
       is_last_of_month (Period.end_date p) /\
       dt_leb (Period.end_date p) (mkdt 2006 12 31 0) = true) /\
    (forall k p q,
       nth_error ends k = Some p -> nth_error ends (S k) = Some q ->
       Period.start_date q = add_months (Period.start_date p) 1).
Proof.
  destruct (periods_in_range_month_aligned series_2006 None 3
              (mkdt 2006 1 3 0) (mkdt 2006 12 29 0))
    as (ends & Hfuel & Hall & Hstep).
  - discriminate.
  - simpl; lia.
  - simpl; lia.
  - exists ends. split; [|split].
    + apply Hfuel. vm_compute. lia.
    + intros p Hp. destruct (Hall p Hp) as (H1 & _ & H2 & _ & _ & H3). auto.
    + intros k p q Hp Hq. now destruct (Hstep k p q Hp Hq).
Defined.

Lemma periods_in_range_count_witness :
  months_spanned (mkdt 2006 1 3 0) (mkdt 2006 12 29 0) = 12 /\
  exists ends,
    periods_in_range 20 series_2006 None 3 (mkdt 2006 1 3 0) (mkdt 2006 12 29 0)
      = Some ends /\
    Z.of_nat (length ends) = 10 /\
    (forall k p, nth_error ends k = Some p ->
       Period.start_date p = add_months (mkdt 2006 1 1 0) (Z.of_nat k)).
Proof.
  split; [reflexivity|].
  destruct (periods_in_range_count series_2006 None 3
              (mkdt 2006 1 3 0) (mkdt 2006 12 29 0))
    as (ends & Hfuel & Hlen & Hnth).
  - discriminate.
  - simpl; lia.
  - simpl; lia.
  - lia.
  - simpl; lia.
  - exists ends. split; [|split].
    + apply Hfuel. vm_compute. lia.
    + rewrite Hlen. reflexivity.
    + intros k p Hp. now destruct (Hnth k p Hp).
Defined.

(** A series within one month gives, for one-month windows, the single
    period from the first to the last day of that month. *)
Example periods_in_range_single_month :
  periods_in_range 5 series_march None 1 (mkdt 2006 3 6 0) (mkdt 2006 3 24 0)
  = Some [Period.mk (mkdt 2006 3 1 0) (mkdt 2006 3 31 0) series_march None].
Proof. reflexivity. Qed.

(** Three-month windows over 2006 overlap: one starts each month. *)
Example periods_in_range_three_month_2006 :
  option_map (map (fun p => (month (Period.start_date p), month (Period.end_date p),
                             day (Period.end_date p))))
    (periods_in_range 20 series_2006 None 3 (mkdt 2006 1 3 0) (mkdt 2006 12 29 0))
  = Some [(1, 3, 31); (2, 4, 30); (3, 5, 31); (4, 6, 30); (5, 7, 31); (6, 8, 31);
          (7, 9, 30); (8, 10, 31); (9, 11, 30); (10, 12, 31)].
Proof. reflexivity. Qed.

(** The dates keep their time of day, and the bound of the loop compares
    it: when the first date is at a later time of day than the last one,
    the window that ends in the last month is not emitted. *)
Example periods_in_range_later_time_of_day :
  periods_in_range 5 series_march None 1
    (mkdt 2006 3 6 52200000000) (mkdt 2006 3 24 0) = Some [].
Proof. reflexivity. Qed.

(** ** Calendar checks *)

Example toordinal_2013 : toordinal (mkdt 2013 1 1 0) = 734869.
Proof. reflexivity. Qed.

Example sub_one_day_march_leap :
  sub_one_day (mkdt 2008 3 1 0) = mkdt 2008 2 29 0 /\
  sub_one_day (mkdt 2006 1 1 0) = mkdt 2005 12 31 0 /\
  add_months (mkdt 2006 11 1 0) 3 = mkdt 2007 2 1 0 /\
  add_months (mkdt 2006 1 31 0) 1 = mkdt 2006 2 28 0.
Proof. repeat split. Qed.

Example timedelta_days_floor :
  timedelta_days (mkdt 2013 1 5 0) (mkdt 2013 1 1 52200000000) = 3 /\
  timedelta_days (mkdt 2013 1 1 0) (mkdt 2013 1 1 52200000000) = -1.
Proof. split; reflexivity. Qed.

(** ** Binary64 facts *)

Section Binary64.

Lemma digits2_pos_size p : digits2_pos p = Pos.size p.
Proof. induction p; simpl; congruence. Qed.

Lemma Zdigits2_log2 m : 0 < m -> Zdigits2 m = Z.log2 m + 1.
Proof.
  destruct m as [|p|p]; try lia. intros _. simpl.
  destruct p; simpl; rewrite ?digits2_pos_size; lia.
Qed.

Lemma shr_1_half mrs : 0 <= shr_m mrs -> shr_m (shr_1 mrs) = shr_m mrs / 2.
Proof.
  destruct mrs as [m r s]. simpl. intros H.
  destruct m as [|[p|p|]|p]; simpl; try lia; try reflexivity.
  - rewrite Pos2Z.inj_xI. apply (Z.div_unique _ 2 _ 1); lia.
  - rewrite Pos2Z.inj_xO. apply (Z.div_unique _ 2 _ 0); lia.
Qed.

Lemma pow2_xI k : 2 ^ Zpos k~1 = 2 * 2 ^ Zpos k * 2 ^ Zpos k.
Proof.
  replace (Z.pos k~1) with (1 + Z.pos k + Z.pos k) by lia.
  rewrite !Z.pow_add_r by lia. reflexivity.
Qed.

Lemma pow2_xO k : 2 ^ Zpos k~0 = 2 ^ Zpos k * 2 ^ Zpos k.
Proof.
  replace (Z.pos k~0) with (Z.pos k + Z.pos k) by lia.
  rewrite !Z.pow_add_r by lia. reflexivity.
Qed.

Lemma iter_shr_1 k : forall mrs,
  0 <= shr_m mrs -> shr_m (iter_pos shr_1 k mrs) = shr_m mrs / 2 ^ Zpos k.
Proof.
  induction k as [k IH|k IH|]; intros mrs H; simpl iter_pos.
  - assert (Hp : 0 < 2 ^ Zpos k) by (apply Z.pow_pos_nonneg; lia).
    assert (H1 : 0 <= shr_m (shr_1 mrs))
      by (rewrite shr_1_half by assumption; apply Z.div_pos; lia).
    assert (H2 : 0 <= shr_m (iter_pos shr_1 k (shr_1 mrs)))
      by (rewrite IH by assumption; apply Z.div_pos; assumption).
    rewrite IH, IH, shr_1_half by assumption.
    rewrite !Z.div_div by lia.
    rewrite pow2_xI. f_equal. ring.
  - assert (Hp : 0 < 2 ^ Zpos k) by (apply Z.pow_pos_nonneg; lia).
    assert (H2 : 0 <= shr_m (iter_pos shr_1 k mrs))
      by (rewrite IH by assumption; apply Z.div_pos; assumption).
    rewrite IH, IH by assumption.
    rewrite !Z.div_div by lia.
    rewrite pow2_xO. f_equal.
  - rewrite shr_1_half by assumption. reflexivity.
Qed.

Lemma shr_m_record_of_loc m l : shr_m (shr_record_of_loc m l) = m.
Proof. destruct l as [|[| |]]; reflexivity. Qed.

(** Away from the underflow range, the shift of [shr_fexp] keeps a
    positive mantissa positive and does not lower its magnitude. *)
Lemma shr_fexp_positive m e l :
  0 < m -> -1021 <= Zdigits2 m + e ->
  0 < shr_m (fst (shr_fexp prec emax m e l)) /\
  Zdigits2 m + e
  <= Zdigits2 (shr_m (fst (shr_fexp prec emax m e l))) + snd (shr_fexp prec emax m e l).
Proof.
  intros Hm Hd. unfold shr_fexp, shr.
  assert (Hf : fexp prec emax (Zdigits2 m + e) = Zdigits2 m + e - 53)
    by (unfold fexp, SpecFloat.emin, prec, emax; lia).
  rewrite Hf.
  destruct (Zdigits2 m + e - 53 - e) as [|k|k] eqn:Ek; simpl fst; simpl snd;
    rewrite ?shr_m_record_of_loc; try (split; lia).
  rewrite iter_shr_1 by (rewrite shr_m_record_of_loc; lia).
  rewrite shr_m_record_of_loc.
  rewrite Zdigits2_log2 in Ek, Hd |- * by assumption.
  assert (Hk : Zpos k = Z.log2 m - 52) by lia.
  pose proof (Z.log2_spec m Hm) as [Hlo _].
  assert (Hq : 2 ^ 52 <= m / 2 ^ Zpos k).
  { apply Z.div_le_lower_bound; [apply Z.pow_pos_nonneg; lia|].
    rewrite <- Z.pow_add_r by lia.
    replace (Z.pos k + 52) with (Z.log2 m) by lia. exact Hlo. }
  assert (Hpos : 0 < m / 2 ^ Zpos k) by (change (2 ^ 52) with 4503599627370496 in Hq; lia).
  split; [exact Hpos|].
  rewrite Zdigits2_log2 by exact Hpos.
  assert (52 <= Z.log2 (m / 2 ^ Zpos k)).
  { apply Z.log2_le_pow2; [exact Hpos|exact Hq]. }
  assert (Z.log2 (m / 2 ^ Zpos k) = Z.log2 m - Zpos k).
  { rewrite <- Z.shiftr_div_pow2 by lia.
    rewrite Z.log2_shiftr by exact Hm. lia. }
  lia.
Qed.

Lemma round_nearest_even_ge m l : m <= round_nearest_even m l.
Proof.
  destruct l as [|[| |]]; simpl; try lia. destruct (Z.even m); lia.
Qed.

Lemma Zdigits2_mono a b : 0 < a -> a <= b -> Zdigits2 a <= Zdigits2 b.
Proof.
  intros Ha Hab. rewrite !Zdigits2_log2 by lia.
  pose proof (Z.log2_le_mono a b Hab). lia.
Qed.

(** Rounding a positive mantissa away from the underflow range gives a
    finite number or an infinity of the given sign. *)
Lemma binary_round_aux_nonzero sx m e l :
  0 < m -> -1021 <= Zdigits2 m + e ->
  match binary_round_aux prec emax sx m e l with
  | S754_finite s _ _ | S754_infinity s => s = sx
  | _ => False
  end.
Proof.
  intros Hm Hd. unfold binary_round_aux.
  destruct (shr_fexp_positive m e l Hm Hd) as [H1 H2].
  destruct (shr_fexp prec emax m e l) as [mrs' e'] eqn:E1. simpl fst in *. simpl snd in *.
  set (m2 := round_nearest_even (shr_m mrs') (loc_of_shr_record mrs')).
  assert (Hm2 : shr_m mrs' <= m2) by apply round_nearest_even_ge.
  assert (Hd2 : -1021 <= Zdigits2 m2 + e').
  { pose proof (Zdigits2_mono (shr_m mrs') m2 H1 Hm2). lia. }
  destruct (shr_fexp_positive m2 e' loc_Exact ltac:(lia) Hd2) as [H3 _].
  destruct (shr_fexp prec emax m2 e' loc_Exact) as [mrs'' e''] eqn:E2. simpl fst in *.
  destruct (shr_m mrs'') as [|p|p]; try lia.
  destruct (e'' <=? emax - prec); reflexivity.
Qed.

Lemma of_int_positive p :
  match of_int (Zpos p) with
  | S754_finite s _ _ | S754_infinity s => s = false
  | _ => False
  end.
Proof.
  unfold of_int, binary_normalize, binary_round.
  destruct (shl_align p 0 (fexp prec emax (Z.pos (digits2_pos p) + 0))) as [mz ez] eqn:E.
  apply binary_round_aux_nonzero; [lia|].
  unfold shl_align in E.
  assert (Hf : fexp prec emax (Z.pos (digits2_pos p) + 0) = Z.pos (digits2_pos p) - 53)
    by (unfold fexp, SpecFloat.emin, prec, emax; lia).
  rewrite Hf in E.
  destruct (Z.pos (digits2_pos p) - 53 - 0) eqn:Ed;
    apply (f_equal snd) in E; cbn [snd] in E; subst ez;
    cbn [Zdigits2]; lia.
Qed.

(** Zero divided by the double of a positive integer is zero. *)
Lemma fdiv_zero_of_int n : 0 < n -> fdiv zero (of_int n) = zero.
Proof.
  destruct n as [|p|p]; try lia. intros _.
  pose proof (of_int_positive p) as H.
  unfold fdiv, zero. destruct (of_int (Zpos p)) as [s|s| |s m e];
    try contradiction; subst; reflexivity.
Qed.

Lemma fsqrt_zero : fsqrt zero = zero.
Proof. reflexivity. Qed.

(** [mar <= r] rules out [r < mar]. *)
Lemma fleb_not_fltb a b : fleb a b = true -> fltb b a = false.
Proof.
  unfold fleb, fltb, SFleb, SFltb.
  destruct a as [sa|sa| |sa ma ea], b as [sb|sb| |sb mb eb]; simpl;
    try reflexivity; try discriminate;
    try (destruct sa, sb; simpl; intros; try reflexivity; discriminate);
    try (destruct sa; simpl; intros; try reflexivity; discriminate);
    try (destruct sb; simpl; intros; try reflexivity; discriminate).
  assert (A : Pos.compare_cont Eq mb ma = CompOpp (Pos.compare_cont Eq ma mb))
    by (rewrite Pos.compare_cont_antisym; reflexivity).
  rewrite (Z.compare_antisym ea eb), A.
  destruct sa, sb; simpl; try reflexivity; try discriminate;
    destruct (ea ?= eb); simpl; try reflexivity; try discriminate;
    destruct (Pos.compare_cont Eq ma mb); simpl; intros;
      try reflexivity; discriminate.
Qed.

End Binary64.

(** ** The Sortino ratio *)

Section SortinoFacts.

Variable np_sum : list float -> float.
Variable tolerant_equals : float -> float -> bool.

Lemma downside_none_below rets mar :
  (forall r, In r rets -> fltb r mar = false) -> downside rets mar = [].
Proof.
  intros H. unfold downside.
  replace (filter (fun r => fltb r mar) rets) with (@nil float); [reflexivity|].
  symmetry. induction rets as [|r rets IH]; [reflexivity|]. simpl.
  rewrite (H r (or_introl eq_refl)). apply IH. intros r' Hr'. apply H. now right.
Qed.

Lemma downside_deviation_none_below rets mar :
  rets <> [] -> np_sum [] = zero ->
  (forall r, In r rets -> fltb r mar = false) ->
  downside_deviation np_sum rets mar = zero.
Proof.
  intros Hne Hsum H. unfold downside_deviation.
  fold (downside rets mar). rewrite (downside_none_below _ _ H), Hsum.
  rewrite fdiv_zero_of_int; [reflexivity|].
  destruct rets; [congruence|simpl length; lia].
Qed.

(** C9. [sortino_ratio] is 0.0 on the empty array. On any other array its
    downside deviation is the root of the sum, over the returns strictly
    below [mar], of the squares of (return - mar), divided by the count of
    all returns; the result is 0.0 when that deviation is tolerantly zero
    and (period_return - mar) / deviation otherwise. When every return is
    at least [mar] the deviation is zero and the result is 0.0. *)
Theorem sortino_ratio_downside_deviation rets period_return mar :
  sortino_ratio np_sum tolerant_equals [] period_return mar = zero /\
  (rets <> [] ->
   sortino_ratio np_sum tolerant_equals rets period_return mar
   = (let dr := downside_deviation np_sum rets mar in
      if tolerant_equals dr zero then zero
      else fdiv (fsub period_return mar) dr)) /\
  (rets <> [] ->
   np_sum [] = zero ->
   tolerant_equals zero zero = true ->
   (forall r, In r rets -> fleb mar r = true) ->
   downside_deviation np_sum rets mar = zero /\
   sortino_ratio np_sum tolerant_equals rets period_return mar = zero).
Proof.
  assert (F : rets <> [] ->
              sortino_ratio np_sum tolerant_equals rets period_return mar
              = (let dr := downside_deviation np_sum rets mar in
                 if tolerant_equals dr zero then zero
                 else fdiv (fsub period_return mar) dr)).
  { intros Hne. unfold sortino_ratio.
    destruct rets as [|r rs]; [congruence|]. reflexivity. }
  split; [reflexivity|]. split; [exact F|].
  intros Hne Hsum Htol Hge.
  assert (D : downside_deviation np_sum rets mar = zero).
  { apply downside_deviation_none_below; auto.
    intros r Hr. apply fleb_not_fltb. now apply Hge. }
  split; [exact D|].
  rewrite (F Hne). cbv zeta. now rewrite D, Htol.
Qed.

End SortinoFacts.

Lemma sortino_ratio_downside_deviation_witness :
  sortino_ratio sum_left tolerant_equals_1e6 [] rate_2pct zero = zero /\
  downside_deviation sum_left [of_int 1; rate_3pct; zero] zero = zero /\
  sortino_ratio sum_left tolerant_equals_1e6 [of_int 1; rate_3pct; zero] rate_2pct zero
  = zero.
Proof.
  pose proof (sortino_ratio_downside_deviation sum_left tolerant_equals_1e6
                [of_int 1; rate_3pct; zero] rate_2pct zero) as (H0 & _ & H).
  split; [exact H0|].
  apply H.
  - discriminate.
  - reflexivity.
  - reflexivity.
  - intros r [<-|[<-|[<-|[]]]]; reflexivity.
Defined.

(** One return of -2 among two returns, against a threshold of 0: the
    square 4 is divided by 2, the count of all returns, not by 1. *)
Example downside_deviation_total_count :
  downside_deviation sum_left [of_int 1; of_int (-2)] zero = fsqrt (of_int 2) /\
  sortino_ratio sum_left tolerant_equals_1e6 [of_int 1; of_int (-2)] (of_int 1) zero
  = fdiv (of_int 1) (fsqrt (of_int 2)).
Proof. split; vm_compute; reflexivity. Qed.

(** ** The result does not depend on the fuel *)

Lemma periods_loop_fuel_le rets bench months_per the_end f1 f2 ends cur_start l :
  (f1 <= f2)%nat ->
  periods_loop f1 rets bench months_per the_end ends cur_start = Some l ->
  periods_loop f2 rets bench months_per the_end ends cur_start = Some l.
Proof.
  intros Hle H. induction Hle as [|f2 Hle IH]; [exact H|].
  now apply periods_loop_more_fuel.
Qed.

Lemma periods_in_range_fuel_irrelevant rets bench months_per start end_ f1 f2 l1 l2 :
  periods_in_range f1 rets bench months_per start end_ = Some l1 ->
  periods_in_range f2 rets bench months_per start end_ = Some l2 ->
  l1 = l2.
Proof.
  unfold periods_in_range.
  destruct (length rets =? 0)%nat; [congruence|].
  intros H1 H2.
  destruct (Nat.le_ge_cases f1 f2) as [Hle|Hle].
  - rewrite (periods_loop_fuel_le _ _ _ _ _ _ _ _ _ Hle H1) in H2. congruence.
  - rewrite (periods_loop_fuel_le _ _ _ _ _ _ _ _ _ Hle H2) in H1. congruence.
Qed.

(** ** The report on sample series *)

(** Twelve months of returns give 12, 10, 7 and 1 windows of one, three,
    six and twelve months. *)
Example risk_report_2006 :
  option_map (fun r => (length (month_periods r), length (three_month_periods r),
                        length (six_month_periods r), length (year_periods r),
                        created r))
    (RiskReport_init 20 1136073600 series_2006 sim_2006 None)
  = Some (12%nat, 10%nat, 7%nat, 1%nat, 1136073600).
Proof. reflexivity. Qed.

(** With no returns the bounds come from the simulation parameters and
    every collection is empty. *)
Example risk_report_empty :
  option_map (to_dict nat (fun p => length (Period.returns p)))
    (RiskReport_init 0 1136073600 [] sim_2006 None)
  = Some (mkReportDict nat [] [] [] [] 1136073600).
Proof. reflexivity. Qed.

(** On a series that is not empty the report takes its bounds from the
    first and the last date of the series, and holds
    max(0, N - m + 1) periods for each of the four window lengths m. *)
Lemma risk_report_period_counts fuel epoch_now rets sim bench r0 rest :
  rets = r0 :: rest ->
  let start := date r0 in
  let end_ := date (last rets r0) in
  1 <= month start <= 12 ->
  1 <= month end_ <= 12 ->
  tod start <= tod end_ ->
  (enough_fuel 1 start end_ <= fuel)%nat ->
  exists report,
    RiskReport_init fuel epoch_now rets sim bench = Some report /\
    Z.of_nat (length (month_periods report)) = Z.max 0 (months_spanned start end_) /\
    Z.of_nat (length (three_month_periods report))
      = Z.max 0 (months_spanned start end_ - 2) /\
    Z.of_nat (length (six_month_periods report))
      = Z.max 0 (months_spanned start end_ - 5) /\
    Z.of_nat (length (year_periods report))
      = Z.max 0 (months_spanned start end_ - 11).
Proof.
  intros E start end_ Hs He Ht Hfuel.
  assert (Hne : rets <> []) by (rewrite E; discriminate).
  assert (L : forall m, 1 <= m ->
            Z.of_nat (length (windows rets bench m (tod start) (month_index start)
               (Z.to_nat (last_window_month start end_ - month_index start - m + 2))))
            = Z.max 0 (months_spanned start end_ - m + 1)).
  { intros m Hm. rewrite windows_length. unfold months_spanned, last_window_month.
    destruct (Z.ltb_spec (tod end_) (tod start)); lia. }
  subst rets. cbv beta iota zeta delta [RiskReport_init]. fold start end_.
  rewrite !(periods_in_range_closed_form _ bench _ start end_ fuel Hne Hs He)
    by (unfold enough_fuel in *; lia).
  eexists. split; [reflexivity|]. cbn [month_periods three_month_periods
                                         six_month_periods year_periods].
  rewrite !L by lia.
  repeat split; f_equal; lia.
Qed.

(** * Further properties *)

(** ** Reading a rate off a curve *)

Lemma first_rate_split c ds r :
  first_rate c ds = Some r ->
  exists l1 b l2, ds = l1 ++ b :: l2 /\ c b = Some r /\ forall x, In x l1 -> c x = None.
Proof.
  induction ds as [|d ds IH]; simpl; [discriminate|].
  destruct (c d) as [r'|] eqn:E.
  - intros H. inversion H. subst. exists [], d, ds. repeat split; auto. intros x [].
  - intros H. destruct (IH H) as (l1 & b & l2 & -> & Hb & Hl1).
    exists (d :: l1), b, l2. repeat split; auto.
    intros x [<-|Hx]; auto.
Qed.

Lemma first_rate_absent_iff c ds :
  first_rate c ds = None <-> forall b, In b ds -> c b = None.
Proof.
  split; [|apply first_rate_all_absent].
  induction ds as [|d ds IH]; simpl; [intros _ b []|].
  destruct (c d) eqn:E; [discriminate|].
  intros H b [<-|Hb]; auto.
Qed.

Lemma strongly_sorted_tail {A} (R : A -> A -> Prop) l1 b l2 :
  StronglySorted R (l1 ++ b :: l2) -> Forall (R b) l2.
Proof.
  induction l1 as [|a l1 IH]; simpl; intros H; inversion H; subst; auto.
Qed.

Lemma strongly_sorted_head {A} (R : A -> A -> Prop) l1 b l2 :
  StronglySorted R (l1 ++ b :: l2) -> Forall (fun x => R x b) l1.
Proof.
  induction l1 as [|a l1 IH]; simpl; intros H; [constructor|].
  inversion H as [|? ? H1 H2]; subst. constructor; [|auto].
  rewrite Forall_forall in H2. apply H2. apply in_or_app. right. now left.
Qed.

Lemma durations_from_sorted term :
  StronglySorted (fun x y => (bucket_index x < bucket_index y)%nat)
    (skipn (index term TREASURY_DURATIONS) TREASURY_DURATIONS).
Proof.
  destruct term; simpl;
    repeat (constructor; [|repeat (constructor; [unfold bucket_index; simpl; lia|])]);
    constructor.
Qed.

Lemma rate_from_absent c term :
  rate_from c term = None <->
  forall b, (bucket_index term <= bucket_index b)%nat -> c b = None.
Proof.
  unfold rate_from. rewrite first_rate_absent_iff.
  split; intros H b Hb; apply H; now apply in_skipn_durations.
Qed.

Lemma rate_from_present c term r :
  rate_from c term = Some r <->
  exists b, (bucket_index term <= bucket_index b)%nat /\ c b = Some r /\
    forall b', (bucket_index term <= bucket_index b' < bucket_index b)%nat ->
               c b' = None.
Proof.
  unfold rate_from. split.
  - intros H. destruct (first_rate_split _ _ _ H) as (l1 & b & l2 & E & Hb & Hl1).
    pose proof (durations_from_sorted term) as S. rewrite E in S.
    pose proof (strongly_sorted_tail _ _ _ _ S) as T.
    rewrite Forall_forall in T.
    exists b. split; [|split; [exact Hb|]].
    + apply in_skipn_durations. rewrite E. apply in_or_app. right. now left.
    + intros b' Hb'. apply Hl1.
      assert (Hin : In b' (l1 ++ b :: l2))
        by (rewrite <- E; apply in_skipn_durations; lia).
      apply in_app_or in Hin. destruct Hin as [Hin|[->|Hin]]; [exact Hin|lia|].
      specialize (T b' Hin). lia.
  - intros (b & Hb & Hr & Hnone). now apply (first_rate_first_present c term b r).
Qed.

Lemma index_of_In t d : In d (index_of t) <-> exists c, In (d, c) t.
Proof.
  unfold index_of. rewrite in_map_iff. split.
  - intros ([d' c] & E & H). simpl in E. subst. eauto.
  - intros (c & H). exists (d, c). auto.
Qed.

(** X1. [get_treasury_rate] raises [KeyError] exactly for a day that is not
    stored and raises nothing else; for a stored day it yields no rate
    exactly when the curve of the day has none from the target bucket up to
    the thirty-year bucket, and the rate it yields is that of the first such
    bucket that has one. *)
Theorem get_treasury_rate_outcomes t term day :
  (get_treasury_rate t term day = Raise (KeyError day) <-> ~ In day (index_of t)) /\
  (forall e, get_treasury_rate t term day = Raise e -> e = KeyError day) /\
  (forall c, lookup day t = Some c ->
     (get_treasury_rate t term day = Ok None <->
      forall b, (bucket_index term <= bucket_index b)%nat -> c b = None) /\
     (forall r, get_treasury_rate t term day = Ok (Some r) <->
        exists b, (bucket_index term <= bucket_index b)%nat /\ c b = Some r /\
          forall b', (bucket_index term <= bucket_index b' < bucket_index b)%nat ->
                     c b' = None)).
Proof.
  unfold get_treasury_rate. split; [|split].
  - destruct (lookup day t) as [c|] eqn:E.
    + split; [discriminate|]. intros H. exfalso. apply H.
      apply index_of_In. exists c. now apply lookup_In.
    + split; [|reflexivity]. intros _ Hin.
      destruct (lookup_index _ _ Hin) as [c Hc]. congruence.
  - intros e. destruct (lookup day t); [discriminate|]. intros H. now inversion H.
  - intros c ->. fold (rate_from c term). split.
    + rewrite <- rate_from_absent. split; intros H; [now inversion H|now f_equal].
    + intros r. rewrite <- rate_from_present.
      split; intros H; [now inversion H|now f_equal].
Qed.

Lemma get_treasury_rate_outcomes_witness :
  lookup (jan 31) table_longer = Some (curve_from d6month rate_3pct) /\
  get_treasury_rate table_longer d1month (jan 31) = Ok (Some rate_3pct) /\
  get_treasury_rate table_longer d1month (jan 5) = Raise (KeyError (jan 5)) /\
  exists b, (bucket_index d1month <= bucket_index b)%nat /\
    curve_from d6month rate_3pct b = Some rate_3pct /\
    forall b', (bucket_index d1month <= bucket_index b' < bucket_index b)%nat ->
               curve_from d6month rate_3pct b' = None.
Proof.
  split; [reflexivity|]. split; [reflexivity|]. split; [reflexivity|].
  apply (proj2 (proj2 (proj2 (get_treasury_rate_outcomes table_longer d1month (jan 31)))
                  (curve_from d6month rate_3pct) eq_refl) rate_3pct).
  reflexivity.
Defined.

(** ** Outcomes of the resolver *)

Section ResolverOutcomes.

Variable trading_day_distance : datetime -> datetime -> option Z.

Local Abbreviation search_back := (search_back trading_day_distance).
Local Abbreviation choose_treasury := (choose_treasury trading_day_distance).

Lemma get_treasury_rate_stored t term day r :
  get_treasury_rate t term day = Ok (Some r) ->
  exists c, In (day, c) t /\ rate_from c term = Some r.
Proof.
  unfold get_treasury_rate. destruct (lookup day t) as [c|] eqn:E; [|discriminate].
  intros H. inversion H. exists c. split; [now apply lookup_In|reflexivity].
Qed.

Lemma search_back_raise_inv t term end_date days err :
  (forall d, In d days -> In d (index_of t)) ->
  search_back t term end_date days = Raise err ->
  err = AssertionError /\
  exists d r x, In d days /\ get_treasury_rate t term d = Ok (Some r) /\
    trading_day_distance d end_date = Some x /\ x < 0.
Proof.
  induction days as [|d days IH]; simpl; intros Hin; [discriminate|].
  destruct (get_treasury_rate t term d) as [[rate|]|e] eqn:E.
  - unfold search_day_distance.
    destruct (trading_day_distance d end_date) as [x|] eqn:D; [|discriminate].
    destruct (Z.leb_spec 0 x) as [Hx|Hx]; [discriminate|].
    intros H. inversion H. split; [reflexivity|].
    exists d, rate, x. auto.
  - intros H. destruct IH as (-> & d' & r & x & Hd & Hr & Hx); auto.
    split; [reflexivity|]. exists d', r, x. auto.
  - exfalso. unfold get_treasury_rate in E.
    destruct (lookup_index d t (Hin d (or_introl eq_refl))) as [c Hc].
    rewrite Hc in E. discriminate.
Qed.

(** The branches of [choose_treasury], one by one. *)
Lemma choose_treasury_cases t start_date end_date :
  let term := select_treasury_duration start_date end_date in
  let end_day := replace_midnight end_date in
  (exists rate,
     rate_at_end_day t term end_day = Ok (Some rate) /\
     choose_treasury t start_date end_date
     = ([], Ok (prorate rate start_date end_date)))
  \/
  (rate_at_end_day t term end_day = Ok None /\
   ((search_back t term end_date (regression_days t end_day) = Ok None /\
     choose_treasury t start_date end_date = ([], Raise (NoRate end_date term)))
    \/
    (exists err,
       search_back t term end_date (regression_days t end_day) = Raise err /\
       choose_treasury t start_date end_date = ([], Raise err))
    \/
    (exists search_day rate search_dist inside,
       search_back t term end_date (regression_days t end_day)
         = Ok (Some (search_day, rate, search_dist)) /\
       in_span (index_of t) end_day = Some inside /\
       choose_treasury t start_date end_date
       = ((if stale search_dist && inside
           then [mkwarn end_date term search_day] else []),
          Ok (prorate rate start_date end_date))))).
Proof.
  intros term end_day. unfold choose_treasury. fold term end_day.
  destruct (rate_at_end_day t term end_day) as [[rate|]|e] eqn:R.
  - left. eauto.
  - right. split; [reflexivity|].
    destruct (search_back t term end_date (regression_days t end_day))
      as [[[[sd rate] dist]|]|e] eqn:S.
    + right. right.
      destruct (search_back_found _ _ _ _ _ _ _ _ S) as (Hin & _ & _).
      apply regression_days_incl in Hin.
      destruct (in_span (index_of t) end_day) as [inside|] eqn:N.
      * exists sd, rate, dist, inside. split; [reflexivity|]. split; [reflexivity|].
        destruct (stale dist), inside; reflexivity.
      * unfold in_span in N. destruct (index_of t); [destruct Hin|discriminate].
    + left. auto.
    + right. left. eauto.
  - exfalso. eapply rate_at_end_day_not_raise; eauto.
Qed.

(** X2. [choose_treasury] raises only the no-rate error for the requested
    end date and the selected duration, or the assertion error of
    [search_day_distance]: never a key or an index error. Nothing is logged
    when it raises, and when it returns at most one warning is logged, which
    names the end date, the duration and a stored date. *)
Theorem choose_treasury_errors_and_log t start_date end_date :
  let term := select_treasury_duration start_date end_date in
  match choose_treasury t start_date end_date with
  | (log, Raise err) =>
      log = [] /\ (err = NoRate end_date term \/ err = AssertionError)
  | (log, Ok _) =>
      log = [] \/
      exists search_day, In search_day (index_of t) /\
        log = [mkwarn end_date term search_day]
  end.
Proof.
  intros term.
  destruct (choose_treasury_cases t start_date end_date)
    as [(rate & _ & ->)|(_ & [(_ & ->)|[(err & S & ->)|(sd & rate & dist & inside & S & _ & ->)]])].
  - now left.
  - auto.
  - split; [reflexivity|]. right.
    apply search_back_raise_inv in S; [tauto|].
    intros d. apply regression_days_incl.
  - destruct (stale dist && inside); [|now left].
    right. exists sd. split; [|reflexivity].
    destruct (search_back_found _ _ _ _ _ _ _ _ S) as (Hin & _ & _).
    eapply regression_days_incl; eauto.
Qed.

(** X3. The assertion error comes from the calendar alone: it is raised
    only when the calendar reports a negative distance from a stored date
    that has a usable rate to the end date; with a calendar that never
    reports a negative distance for a stored date, the resolver returns a
    rate or raises the no-rate error. *)
Theorem choose_treasury_assertion t start_date end_date :
  let term := select_treasury_duration start_date end_date in
  (snd (choose_treasury t start_date end_date) = Raise AssertionError ->
   exists d c r x,
     In (d, c) t /\ rate_from c term = Some r /\
     trading_day_distance d end_date = Some x /\ x < 0)
  /\
  ((forall d x, In d (index_of t) -> trading_day_distance d end_date = Some x -> 0 <= x) ->
   (exists v, snd (choose_treasury t start_date end_date) = Ok v) \/
   snd (choose_treasury t start_date end_date) = Raise (NoRate end_date term)).
Proof.
  intros term.
  assert (A : snd (choose_treasury t start_date end_date) = Raise AssertionError ->
              exists d c r x,
                In (d, c) t /\ rate_from c term = Some r /\
                trading_day_distance d end_date = Some x /\ x < 0).
  { destruct (choose_treasury_cases t start_date end_date)
      as [(rate & _ & ->)|(_ & [(_ & ->)|[(err & S & ->)|(sd & rate & dist & inside & _ & _ & ->)]])];
      simpl; try discriminate.
    intros _.
    apply search_back_raise_inv in S; [|intros d; apply regression_days_incl].
    destruct S as (_ & d & r & x & _ & Hr & Hx & Hneg).
    destruct (get_treasury_rate_stored _ _ _ _ Hr) as (c & Hc & Hrate).
    exists d, c, r, x. auto. }
  split; [exact A|].
  intros Hcal.
  destruct (choose_treasury_cases t start_date end_date)
    as [(rate & _ & ->)|(_ & [(_ & ->)|[(err & S & ->)|(sd & rate & dist & inside & _ & _ & ->)]])];
    simpl; eauto.
  exfalso.
  apply search_back_raise_inv in S; [|intros d; apply regression_days_incl].
  destruct S as (_ & d & r & x & Hd & _ & Hx & Hneg).
  apply regression_days_incl in Hd.
  specialize (Hcal d x Hd Hx). lia.
Qed.

(** X4. A value returned by [choose_treasury] is always
    rate * (days + 1) / 365 for a rate that some stored snapshot holds for
    the target bucket or a longer one:
    rates of shorter buckets and rates that are not in the table never
    reach the result. *)
Theorem choose_treasury_returns_stored_rate t start_date end_date v :
  let term := select_treasury_duration start_date end_date in
  snd (choose_treasury t start_date end_date) = Ok v ->
  exists d c b r,
    In (d, c) t /\ (bucket_index term <= bucket_index b)%nat /\ c b = Some r /\
    v = fdiv (fmul r (of_int (timedelta_days end_date start_date + 1))) (of_int 365).
Proof.
  intros term.
  assert (G : forall d r, get_treasury_rate t term d = Ok (Some r) ->
              exists d c b r0,
                In (d, c) t /\ (bucket_index term <= bucket_index b)%nat /\
                c b = Some r0 /\
                prorate r start_date end_date
                = fdiv (fmul r0 (of_int (timedelta_days end_date start_date + 1))) (of_int 365)).
  { intros d r Hr. destruct (get_treasury_rate_stored _ _ _ _ Hr) as (c & Hc & Hrate).
    apply rate_from_present in Hrate. destruct Hrate as (b & Hb & Hcb & _).
    exists d, c, b, r. auto. }
  destruct (choose_treasury_cases t start_date end_date)
    as [(rate & R & ->)|(_ & [(_ & ->)|[(err & _ & ->)|(sd & rate & dist & inside & S & _ & ->)]])];
    simpl; try discriminate; intros H; inversion H; subst v.
  - unfold rate_at_end_day in R. fold term in R.
    destruct (contains (replace_midnight end_date) t); [|discriminate].
    eapply G; eauto.
  - destruct (search_back_found _ _ _ _ _ _ _ _ S) as (_ & Hr & _).
    eapply G; eauto.
Qed.

End ResolverOutcomes.

Lemma choose_treasury_assertion_witness :
  snd (choose_treasury distance_negative table_gap (jan 1) (jan_1430 4))
    = Raise AssertionError /\
  (exists d c r x,
     In (d, c) table_gap /\ rate_from c d1month = Some r /\
     distance_negative d (jan_1430 4) = Some x /\ x < 0) /\
  ((exists v, snd (choose_treasury distance_two table_gap (jan 1) (jan_1430 4)) = Ok v) \/
   snd (choose_treasury distance_two table_gap (jan 1) (jan_1430 4))
     = Raise (NoRate (jan_1430 4) d1month)).
Proof.
  split; [reflexivity|]. split.
  - apply (proj1 (choose_treasury_assertion distance_negative table_gap
                    (jan 1) (jan_1430 4))).
    reflexivity.
  - apply (proj2 (choose_treasury_assertion distance_two table_gap
                    (jan 1) (jan_1430 4))).
    intros d x _ H. inversion H. lia.
Defined.

Lemma choose_treasury_returns_stored_rate_witness :
  timedelta_days (jan_1430 4) (jan 1) = 3 /\
  snd (choose_treasury distance_two table_gap (jan 1) (jan_1430 4))
    = Ok (fdiv (fmul rate_2pct (of_int (3 + 1))) (of_int 365)) /\
  exists d c b r,
    In (d, c) table_gap /\ (bucket_index d1month <= bucket_index b)%nat /\
    c b = Some r /\
    fdiv (fmul rate_2pct (of_int (3 + 1))) (of_int 365)
    = fdiv (fmul r (of_int (3 + 1))) (of_int 365).
Proof.
  split; [reflexivity|]. split; [reflexivity|].
  apply (choose_treasury_returns_stored_rate distance_two table_gap
           (jan 1) (jan_1430 4) (fdiv (fmul rate_2pct (of_int (3 + 1))) (of_int 365))).
  reflexivity.
Defined.

(** ** The walk of the date regression *)

Lemma filter_none {A} (f : A -> bool) l :
  (forall x, In x l -> f x = false) -> filter f l = [].
Proof.
  induction l as [|a l IH]; intros H; simpl; [reflexivity|].
  rewrite (H a (or_introl eq_refl)). apply IH. intros x Hx. apply H. now right.
Qed.

(** On a sorted index the position found by [searchsorted] cuts off the
    dates before the searched one. *)
Lemma searchsorted_dates_before a v :
  StronglySorted (fun x y => dt_ltb x y = true) a ->
  firstn (searchsorted a v) a = filter (fun d => dt_ltb d v) a.
Proof.
  induction a as [|x a IH]; intros Hs; simpl; [reflexivity|].
  inversion Hs as [|? ? Hs' Hall]; subst.
  destruct (dt_ltb x v) eqn:E; simpl; [now rewrite IH|].
  symmetry. apply filter_none. intros y Hy.
  rewrite Forall_forall in Hall.
  destruct (dt_ltb y v) eqn:F; [|reflexivity].
  rewrite (dt_ltb_trans x y v) in E; [discriminate|now apply Hall|exact F].
Qed.

Lemma regression_days_sorted t end_day :
  sorted_table t ->
  regression_days t end_day
  = match dates_before t end_day with
    | [] => rev (index_of t)
    | _ :: _ => rev (dates_before t end_day)
    end.
Proof.
  intros Hs. unfold dates_before.
  rewrite <- (searchsorted_dates_before _ _ Hs).
  pose proof (searchsorted_le (index_of t) end_day) as Hle.
  destruct (searchsorted (index_of t) end_day) as [|k] eqn:E.
  - simpl. now apply regression_days_wrap.
  - unfold regression_days. rewrite E, slice_back_prefix by lia.
    destruct (firstn (S k) (index_of t)) eqn:F; [|reflexivity].
    destruct (index_of t); [simpl in Hle; lia|discriminate].
Qed.

(** X5. On a table with increasing dates the regression walks through the
    stored dates that are strictly before [end_day], latest first; when
    there is no such date it walks through every stored date instead,
    latest first. *)
Theorem regression_days_on_sorted_table t end_day :
  sorted_table t ->
  (dates_before t end_day <> [] ->
   regression_days t end_day = rev (dates_before t end_day) /\
   forall d, In d (regression_days t end_day) <->
             In d (index_of t) /\ dt_ltb d end_day = true)
  /\
  (dates_before t end_day = [] ->
   regression_days t end_day = rev (index_of t) /\
   forall d, In d (regression_days t end_day) ->
             In d (index_of t) /\ dt_leb end_day d = true).
Proof.
  intros Hs. rewrite (regression_days_sorted _ _ Hs). split.
  - intros Hne. destruct (dates_before t end_day) as [|d0 l0] eqn:E; [congruence|].
    split; [reflexivity|]. intros d. rewrite <- in_rev, <- E.
    unfold dates_before. now rewrite filter_In.
  - intros Hnil. rewrite Hnil. split; [reflexivity|]. intros d Hd. apply in_rev in Hd.
    split; [exact Hd|]. rewrite dt_leb_ltb.
    destruct (dt_ltb d end_day) eqn:F; [|reflexivity].
    assert (Hin : In d (dates_before t end_day))
      by (unfold dates_before; rewrite filter_In; auto).
    rewrite Hnil in Hin. destruct Hin.
Qed.

Lemma regression_days_on_sorted_table_witness :
  dates_before table_gap (jan 4) = [jan 2] /\
  regression_days table_gap (jan 4) = rev (dates_before table_gap (jan 4)) /\
  dates_before table_late (jan 5) = [] /\
  regression_days table_late (jan 5) = rev (index_of table_late).
Proof.
  split; [reflexivity|]. split; [|split; [reflexivity|]].
  - apply (proj1 (regression_days_on_sorted_table table_gap (jan 4)
                    ltac:(repeat constructor))).
    discriminate.
  - apply (proj2 (regression_days_on_sorted_table table_late (jan 5)
                    ltac:(repeat constructor))).
    reflexivity.
Defined.

Lemma strongly_sorted_filter {A} (R : A -> A -> Prop) (f : A -> bool) l :
  StronglySorted R l -> StronglySorted R (filter f l).
Proof.
  induction l as [|a l IH]; intros H; simpl; [constructor|].
  inversion H as [|? ? H1 H2]; subst.
  destruct (f a); [|auto]. constructor; [auto|].
  rewrite Forall_forall in *. intros x Hx. apply filter_In in Hx. apply H2. tauto.
Qed.

Section Regression.

Variable trading_day_distance : datetime -> datetime -> option Z.

Local Abbreviation search_back := (search_back trading_day_distance).
Local Abbreviation choose_treasury := (choose_treasury trading_day_distance).

Lemma search_back_skip t term end_date a rest :
  (forall x, In x a -> get_treasury_rate t term x = Ok None) ->
  search_back t term end_date (a ++ rest) = search_back t term end_date rest.
Proof.
  induction a as [|x a IH]; intros H; simpl; [reflexivity|].
  rewrite (H x (or_introl eq_refl)). apply IH. intros y Hy. apply H. now right.
Qed.

(** Walking a sorted list of days from its end stops at the latest day that
    has a rate. *)
Lemma search_back_latest t term end_date l d r :
  StronglySorted (fun x y => dt_ltb x y = true) l ->
  In d l ->
  get_treasury_rate t term d = Ok (Some r) ->
  (forall d', In d' l -> dt_ltb d d' = true -> get_treasury_rate t term d' = Ok None) ->
  search_back t term end_date (rev l)
  = match search_day_distance trading_day_distance end_date d with
    | Raise err => Raise err
    | Ok search_dist => Ok (Some (d, r, search_dist))
    end.
Proof.
  intros Hs Hin Hr Hlater.
  destruct (in_split _ _ Hin) as (l1 & l2 & ->).
  rewrite rev_app_distr. simpl. rewrite <- app_assoc. simpl.
  rewrite search_back_skip.
  - simpl. now rewrite Hr.
  - intros x Hx. apply in_rev in Hx. apply Hlater.
    + apply in_or_app. right. now right.
    + pose proof (strongly_sorted_tail _ _ _ _ Hs) as T.
      rewrite Forall_forall in T. now apply T.
Qed.

Lemma rate_at_end_day_none t term end_day :
  (forall c, In (end_day, c) t -> rate_from c term = None) ->
  rate_at_end_day t term end_day = Ok None.
Proof.
  intros H. unfold rate_at_end_day, contains, get_treasury_rate.
  destruct (lookup end_day t) as [c|] eqn:E; [|reflexivity].
  f_equal. apply H. now apply lookup_In.
Qed.

Lemma get_treasury_rate_sorted t term d c :
  sorted_table t -> In (d, c) t ->
  get_treasury_rate t term d = Ok (rate_from c term).
Proof.
  intros Hs Hin. unfold get_treasury_rate.
  now rewrite (sorted_lookup _ _ _ Hs Hin).
Qed.

(** X6. On a table with increasing dates the no-rate error is raised
    exactly when no snapshot the resolver consults has a usable rate: the
    snapshots at or before [end_day], or every snapshot when no stored date
    is before [end_day]. *)
Theorem choose_treasury_no_rate_iff t start_date end_date :
  let term := select_treasury_duration start_date end_date in
  let end_day := replace_midnight end_date in
  sorted_table t ->
  (snd (choose_treasury t start_date end_date) = Raise (NoRate end_date term) <->
   forall d c, In (d, c) t ->
     dt_leb d end_day = true \/ dates_before t end_day = [] ->
     forall b, (bucket_index term <= bucket_index b)%nat -> c b = None).
Proof.
  intros term end_day Hs.
  assert (Q : (forall d c, In (d, c) t ->
                 dt_leb d end_day = true \/ dates_before t end_day = [] ->
                 forall b, (bucket_index term <= bucket_index b)%nat -> c b = None)
              <->
              (forall d c, In (d, c) t ->
                 dt_leb d end_day = true \/ dates_before t end_day = [] ->
                 rate_from c term = None)).
  { split; intros H d c Hin Hd; [apply rate_from_absent|apply rate_from_absent];
      eauto. }
  rewrite Q. clear Q. split.
  - intros H d c Hin Hd.
    pose proof (choose_treasury_cases trading_day_distance t start_date end_date) as Cs.
    cbv zeta in Cs. fold term in Cs. fold end_day in Cs.
    destruct Cs
      as [(rate & _ & E)|(R & [(S & _)|[(err & S & E)|(sd & rate & dist & inside & _ & _ & E)]])];
      try (rewrite E in H; simpl in H; discriminate).
    + assert (V : In d (regression_days t end_day) \/ d = end_day).
      { destruct Hd as [Hd|Hd].
        - apply dt_leb_spec in Hd. destruct Hd as [->|Hd]; [now right|left].
          apply regression_days_cover; auto. apply index_of_In. eauto.
        - left. rewrite (regression_days_sorted _ _ Hs), Hd.
          apply -> in_rev. apply index_of_In. eauto. }
      destruct V as [V| ->].
      * rewrite search_back_exhausted in S. specialize (S d V).
        rewrite (get_treasury_rate_sorted _ _ _ _ Hs Hin) in S. now inversion S.
      * rewrite (rate_at_end_day_hit _ _ _ _ (sorted_lookup _ _ _ Hs Hin)) in R.
        now inversion R.
    + rewrite E in H. simpl in H. inversion H. subst err.
      apply search_back_raise_inv in S; [|intros x; apply regression_days_incl].
      destruct S as [S _]. discriminate.
  - intros H.
    assert (R : rate_at_end_day t term end_day = Ok None).
    { apply rate_at_end_day_none. intros c Hc. apply (H end_day c Hc).
      left. apply dt_leb_spec. now left. }
    assert (S : search_back t term end_date (regression_days t end_day) = Ok None).
    { apply search_back_exhausted. intros d Hd.
      assert (Hi : In d (index_of t)) by (eapply regression_days_incl; eauto).
      apply index_of_In in Hi. destruct Hi as [c Hc].
      rewrite (get_treasury_rate_sorted _ _ _ _ Hs Hc). f_equal.
      apply (H d c Hc).
      rewrite (regression_days_sorted _ _ Hs) in Hd.
      destruct (dates_before t end_day) as [|d0 l0] eqn:E; [now right|left].
      apply in_rev in Hd. rewrite <- E in Hd.
      unfold dates_before in Hd. apply filter_In in Hd.
      apply dt_leb_spec. tauto. }
    pose proof (choose_treasury_cases trading_day_distance t start_date end_date) as Cs.
    cbv zeta in Cs. fold term in Cs. fold end_day in Cs.
    destruct Cs
      as [(rate & R' & _)|(_ & [(_ & E)|[(err & S' & _)|(sd & rate & dist & inside & S' & _ & _)]])];
      try congruence.
    now rewrite E.
Qed.

(** X7. Date regression takes the most recent data: on a table with
    increasing dates, when [end_day] has no usable rate and [d] is the
    latest stored date before [end_day] that has one, the resolver returns
    the rate of [d], pro-rated, unless the calendar reports a negative
    distance for [d]; a warning, if one is logged, names [d]. *)
Theorem choose_treasury_most_recent_date t start_date end_date d c r :
  let term := select_treasury_duration start_date end_date in
  let end_day := replace_midnight end_date in
  sorted_table t ->
  (forall c', In (end_day, c') t -> rate_from c' term = None) ->
  In (d, c) t ->
  dt_ltb d end_day = true ->
  rate_from c term = Some r ->
  (forall d' c', In (d', c') t -> dt_ltb d d' = true -> dt_ltb d' end_day = true ->
                 rate_from c' term = None) ->
  (forall x, trading_day_distance d end_date = Some x -> 0 <= x) ->
  snd (choose_treasury t start_date end_date) = Ok (prorate r start_date end_date) /\
  (fst (choose_treasury t start_date end_date) = [] \/
   fst (choose_treasury t start_date end_date) = [mkwarn end_date term d]).
Proof.
  intros term end_day Hs Hend Hin Hlt Hr Hlater Hcal.
  assert (R : rate_at_end_day t term end_day = Ok None)
    by now apply rate_at_end_day_none.
  assert (Hb : In d (dates_before t end_day)).
  { unfold dates_before. rewrite filter_In. split; [|exact Hlt].
    apply index_of_In. eauto. }
  assert (D : exists dist, search_day_distance trading_day_distance end_date d = Ok dist).
  { unfold search_day_distance.
    destruct (trading_day_distance d end_date) as [x|] eqn:E; [|eauto].
    specialize (Hcal x eq_refl). destruct (Z.leb_spec 0 x); [eauto|lia]. }
  destruct D as [dist D].
  assert (S : search_back t term end_date (regression_days t end_day)
              = Ok (Some (d, r, dist))).
  { rewrite (regression_days_sorted _ _ Hs).
    destruct (dates_before t end_day) as [|d0 l0] eqn:E; [destruct Hb|].
    rewrite <- E in *.
    rewrite (search_back_latest t term end_date (dates_before t end_day) d r).
    - now rewrite D.
    - apply strongly_sorted_filter. exact Hs.
    - exact Hb.
    - rewrite (get_treasury_rate_sorted _ _ _ _ Hs Hin). now rewrite Hr.
    - intros d' Hd' Hdd'. unfold dates_before in Hd'. apply filter_In in Hd'.
      destruct Hd' as [Hi Hlt']. apply index_of_In in Hi. destruct Hi as [c' Hc'].
      rewrite (get_treasury_rate_sorted _ _ _ _ Hs Hc'). f_equal.
      eapply Hlater; eauto. }
  pose proof (choose_treasury_cases trading_day_distance t start_date end_date) as Cs.
  cbv zeta in Cs. fold term in Cs. fold end_day in Cs.
  destruct Cs
    as [(rate & R' & _)|(_ & [(S' & _)|[(err & S' & _)|(sd & rate & dist' & inside & S' & _ & E)]])];
    try congruence.
  rewrite S in S'. inversion S'. subst sd rate dist'.
  rewrite E. simpl. split; [reflexivity|].
  destruct (stale dist && inside); auto.
Qed.

End Regression.

Lemma choose_treasury_no_rate_iff_witness :
  select_treasury_duration nov_20 (jan_1430 4) = d3month /\
  snd (choose_treasury distance_two table_short nov_20 (jan_1430 4))
    = Raise (NoRate (jan_1430 4) d3month) /\
  (snd (choose_treasury distance_two table_short nov_20 (jan_1430 4))
     = Raise (NoRate (jan_1430 4) d3month) <->
   forall d c, In (d, c) table_short ->
     dt_leb d (jan 4) = true \/ dates_before table_short (jan 4) = [] ->
     forall b, (bucket_index d3month <= bucket_index b)%nat -> c b = None).
Proof.
  split; [reflexivity|]. split; [reflexivity|].
  apply (choose_treasury_no_rate_iff distance_two table_short nov_20 (jan_1430 4)).
  repeat constructor.
Defined.

Lemma choose_treasury_most_recent_date_witness :
  snd (choose_treasury distance_two table_gap (jan 1) (jan_1430 4))
    = Ok (prorate rate_2pct (jan 1) (jan_1430 4)) /\
  (fst (choose_treasury distance_two table_gap (jan 1) (jan_1430 4)) = [] \/
   fst (choose_treasury distance_two table_gap (jan 1) (jan_1430 4))
     = [mkwarn (jan_1430 4) d1month (jan 2)]).
Proof.
  apply (choose_treasury_most_recent_date distance_two table_gap (jan 1) (jan_1430 4)
           (jan 2) (flat_curve rate_2pct) rate_2pct).
  - repeat constructor.
  - intros c' [H|[H|[H|[]]]]; try discriminate H; inversion H; reflexivity.
  - left. reflexivity.
  - reflexivity.
  - reflexivity.
  - intros d' c' [H|[H|[H|[]]]] H1 H2; inversion H; subst; discriminate.
  - intros x H. inversion H. lia.
Defined.

(** ** The windows of [periods_in_range] *)

Lemma dt_ltb_first_last i j t :
  i <= j -> dt_ltb (first_day_of i t) (last_day_of j t) = true.
Proof.
  intros H. apply dt_ltb_lt. unfold lex_lt.
  destruct (Z.eq_dec i j) as [->|Hne].
  - simpl. pose proof (days_in_month_ge_28 (j / 12) (j mod 12 + 1)). lia.
  - pose proof (proj1 (month_index_lt_iff (first_day_of i t) (last_day_of j t)
                    (first_day_of_month_range _ _) (last_day_of_month_range _ _))) as M.
    rewrite month_index_first_day_of, month_index_last_day_of in M.
    specialize (M ltac:(lia)). tauto.
Qed.

Lemma dt_ltb_last_first i j t :
  j < i -> dt_ltb (last_day_of j t) (first_day_of i t) = true.
Proof.
  intros H. apply dt_ltb_lt. unfold lex_lt.
  pose proof (proj1 (month_index_lt_iff (last_day_of j t) (first_day_of i t)
                  (last_day_of_month_range _ _) (first_day_of_month_range _ _))) as M.
  rewrite month_index_first_day_of, month_index_last_day_of in M.
  specialize (M H). tauto.
Qed.

Lemma windows_nth_some rets bench months_per t n : forall i k,
  (k < n)%nat ->
  nth_error (windows rets bench months_per t i n) k
  = Some (Period.mk (first_day_of (i + Z.of_nat k) t)
                    (last_day_of (i + Z.of_nat k + months_per - 1) t) rets bench).
Proof.
  induction n as [|n IH]; intros i k Hk; [lia|].
  rewrite windows_succ. destruct k as [|k]; simpl nth_error.
  - now rewrite Z.add_0_r.
  - rewrite IH by lia. do 2 f_equal; f_equal; lia.
Qed.

Lemma windows_starts rets bench months_per t i n :
  map Period.start_date (windows rets bench months_per t i n)
  = map (fun k => first_day_of (i + Z.of_nat k) t) (seq 0 n).
Proof. unfold windows. rewrite map_map. reflexivity. Qed.

Lemma firstn_seq_le n m : (n <= m)%nat -> firstn n (seq 0 m) = seq 0 n.
Proof.
  generalize 0%nat. revert m. induction n as [|n IH]; intros m s H; [reflexivity|].
  destruct m as [|m]; [lia|]. simpl. f_equal. apply IH. lia.
Qed.

(** X8. Each period emitted by [periods_in_range] spans [months_per]
    calendar months: it ends on the day before the date [months_per] months
    after its start, both dates keep the time of day of [start], and it
    carries the whole return series and benchmark it was given. A window of
    one month or more starts before it ends; with [months_per] of zero or
    less the periods end before they start. *)
Theorem periods_in_range_window_span rets bench months_per start end_ :
  rets <> [] ->
  1 <= month start <= 12 ->
  1 <= month end_ <= 12 ->
  exists ends,
    (forall fuel, (enough_fuel months_per start end_ <= fuel)%nat ->
       periods_in_range fuel rets bench months_per start end_ = Some ends) /\
    forall p, In p ends ->
      Period.end_date p = sub_one_day (add_months (Period.start_date p) months_per) /\
      month_index (Period.end_date p)
        = month_index (Period.start_date p) + months_per - 1 /\
      tod (Period.start_date p) = tod start /\
      tod (Period.end_date p) = tod start /\
      Period.returns p = rets /\
      Period.benchmark_returns p = bench /\
      (1 <= months_per ->
       dt_ltb (Period.start_date p) (Period.end_date p) = true) /\
      (months_per <= 0 ->
       dt_ltb (Period.end_date p) (Period.start_date p) = true).
Proof.
  intros Hne Hs He. eexists. split.
  - intros fuel Hfuel. now apply periods_in_range_closed_form.
  - intros p Hp. apply windows_In in Hp. destruct Hp as (k & Hk & ->).
    cbn [Period.start_date Period.end_date Period.returns Period.benchmark_returns].
    rewrite add_months_first_day_of, sub_one_day_first_day_of,
            month_index_first_day_of, month_index_last_day_of.
    repeat split.
    + intros Hm. apply dt_ltb_first_last. lia.
    + intros Hm. apply dt_ltb_last_first. lia.
Qed.

(** X9. When the first date is at a later time of day than the last one,
    the window that would end in the month of the last date is not
    emitted: for [months_per >= 1] there are max(0, N - months_per)
    periods, N counting the months from that of the first date through that
    of the last, and every period ends in a month before that of the last
    date. *)
Theorem periods_in_range_count_later_time rets bench months_per start end_ :
  rets <> [] ->
  1 <= month start <= 12 ->
  1 <= month end_ <= 12 ->
  1 <= months_per ->
  tod end_ < tod start ->
  exists ends,
    (forall fuel, (enough_fuel months_per start end_ <= fuel)%nat ->
       periods_in_range fuel rets bench months_per start end_ = Some ends) /\
    Z.of_nat (length ends) = Z.max 0 (months_spanned start end_ - months_per) /\
    forall p, In p ends -> month_index (Period.end_date p) < month_index end_.
Proof.
  intros Hne Hs He Hm Ht. eexists. split; [|split].
  - intros fuel Hfuel. now apply periods_in_range_closed_form.
  - rewrite windows_length. unfold months_spanned, last_window_month.
    destruct (Z.ltb_spec (tod end_) (tod start)); lia.
  - intros p Hp. apply windows_In in Hp. destruct Hp as (k & Hk & ->).
    cbn [Period.end_date]. rewrite month_index_last_day_of.
    unfold last_window_month in Hk.
    destruct (Z.ltb_spec (tod end_) (tod start)); lia.
Qed.

(** X10. Longer windows start in the same months as shorter ones, only
    fewer of them: for [m1 <= m2] the start dates of the [m2]-month periods
    are the first start dates of the [m1]-month periods. *)
Theorem periods_in_range_starts_prefix rets bench m1 m2 start end_ :
  rets <> [] ->
  1 <= month start <= 12 ->
  1 <= month end_ <= 12 ->
  m1 <= m2 ->
  exists ends1 ends2,
    (forall fuel, (enough_fuel m1 start end_ <= fuel)%nat ->
       periods_in_range fuel rets bench m1 start end_ = Some ends1 /\
       periods_in_range fuel rets bench m2 start end_ = Some ends2) /\
    (length ends2 <= length ends1)%nat /\
    map Period.start_date ends2
    = firstn (length ends2) (map Period.start_date ends1).
Proof.
  intros Hne Hs He Hm. eexists. eexists. split; [|split].
  - intros fuel Hfuel. split; apply periods_in_range_closed_form; auto.
    unfold enough_fuel in *. lia.
  - rewrite !windows_length. lia.
  - rewrite !windows_starts, windows_length, firstn_map, firstn_seq_le by lia.
    reflexivity.
Qed.

(** X11. When at least one period is emitted and the first date is at a
    time of day no later than the last one, the periods reach from the
    month of the first date to the month of the last: the first period
    starts on the first day of the month of [start] and the last period
    ends on the last day of the month of [end_]. *)
Theorem periods_in_range_covers_range rets bench months_per start end_ :
  rets <> [] ->
  1 <= month start <= 12 ->
  1 <= month end_ <= 12 ->
  tod start <= tod end_ ->
  1 <= months_per <= months_spanned start end_ ->
  exists ends first last_,
    (forall fuel, (enough_fuel months_per start end_ <= fuel)%nat ->
       periods_in_range fuel rets bench months_per start end_ = Some ends) /\
    nth_error ends 0 = Some first /\
    Period.start_date first = replace_day1 start /\
    nth_error ends (length ends - 1) = Some last_ /\
    Period.end_date last_
    = mkdt (year end_) (month end_) (days_in_month (year end_) (month end_)) (tod start).
Proof.
  intros Hne Hs He Ht Hm.
  set (n := Z.to_nat (last_window_month start end_ - month_index start - months_per + 2)).
  assert (Hl : last_window_month start end_ = month_index end_)
    by (unfold last_window_month; destruct (Z.ltb_spec (tod end_) (tod start)); lia).
  assert (Hn : (1 <= n)%nat) by (unfold months_spanned in Hm; subst n; lia).
  exists (windows rets bench months_per (tod start) (month_index start) n).
  eexists. eexists. split; [|split; [|split; [|split]]].
  - intros fuel Hfuel. now apply periods_in_range_closed_form.
  - apply windows_nth_some. lia.
  - cbn [Period.start_date]. rewrite Z.add_0_r. symmetry.
    now apply replace_day1_first_day_of.
  - rewrite windows_length. apply windows_nth_some. lia.
  - cbn [Period.end_date].
    replace (month_index start + Z.of_nat (n - 1) + months_per - 1)
      with (month_index end_) by (unfold months_spanned in Hm; subst n; lia).
    unfold last_day_of. now rewrite month_index_div, month_index_mod.
Qed.

Lemma periods_in_range_window_span_witness :
  exists ends,
    periods_in_range 20 series_2006 None 3 (mkdt 2006 1 3 0) (mkdt 2006 12 29 0)
      = Some ends /\
    forall p, In p ends ->
      month_index (Period.end_date p) = month_index (Period.start_date p) + 3 - 1 /\
      Period.returns p = series_2006 /\
      dt_ltb (Period.start_date p) (Period.end_date p) = true.
Proof.
  destruct (periods_in_range_window_span series_2006 None 3
              (mkdt 2006 1 3 0) (mkdt 2006 12 29 0))
    as (ends & Hfuel & Hall).
  - discriminate.
  - simpl; lia.
  - simpl; lia.
  - exists ends. split; [apply Hfuel; vm_compute; lia|].
    intros p Hp. destruct (Hall p Hp) as (_ & H1 & _ & _ & H2 & _ & H3 & _).
    split; [exact H1|]. split; [exact H2|]. apply H3. lia.
Defined.

Lemma periods_in_range_count_later_time_witness :
  months_spanned (mkdt 2006 1 3 52200000000) (mkdt 2006 12 29 0) = 12 /\
  exists ends,
    periods_in_range 20 series_2006 None 3
      (mkdt 2006 1 3 52200000000) (mkdt 2006 12 29 0) = Some ends /\
    Z.of_nat (length ends) = 9.
Proof.
  split; [reflexivity|].
  destruct (periods_in_range_count_later_time series_2006 None 3
              (mkdt 2006 1 3 52200000000) (mkdt 2006 12 29 0))
    as (ends & Hfuel & Hlen & _).
  - discriminate.
  - simpl; lia.
  - simpl; lia.
  - lia.
  - simpl; lia.
  - exists ends. split; [apply Hfuel; vm_compute; lia|].
    rewrite Hlen. reflexivity.
Defined.

Lemma periods_in_range_starts_prefix_witness :
  exists ends1 ends2,
    periods_in_range 20 series_2006 None 3 (mkdt 2006 1 3 0) (mkdt 2006 12 29 0)
      = Some ends1 /\
    periods_in_range 20 series_2006 None 6 (mkdt 2006 1 3 0) (mkdt 2006 12 29 0)
      = Some ends2 /\
    map Period.start_date ends2
    = firstn (length ends2) (map Period.start_date ends1).
Proof.
  destruct (periods_in_range_starts_prefix series_2006 None 3 6
              (mkdt 2006 1 3 0) (mkdt 2006 12 29 0))
    as (ends1 & ends2 & Hfuel & _ & Hpre).
  - discriminate.
  - simpl; lia.
  - simpl; lia.
  - lia.
  - exists ends1, ends2.
    destruct (Hfuel 20%nat) as [H1 H2]; [vm_compute; lia|]. auto.
Defined.

Lemma periods_in_range_covers_range_witness :
  exists ends first last_,
    periods_in_range 20 series_2006 None 6 (mkdt 2006 1 3 0) (mkdt 2006 12 29 0)
      = Some ends /\
    nth_error ends 0 = Some first /\
    Period.start_date first = mkdt 2006 1 1 0 /\
    nth_error ends (length ends - 1) = Some last_ /\
    Period.end_date last_ = mkdt 2006 12 31 0.
Proof.
  destruct (periods_in_range_covers_range series_2006 None 6
              (mkdt 2006 1 3 0) (mkdt 2006 12 29 0))
    as (ends & first & last_ & Hfuel & H0 & Hs & Hl & He).
  - discriminate.
  - simpl; lia.
  - simpl; lia.
  - simpl; lia.
  - vm_compute. split; discriminate.
  - exists ends, first, last_.
    split; [apply Hfuel; vm_compute; lia|]. auto.
Defined.

(** ** Rolling periods and the duration selector *)

Lemma days_before_year_succ y :
  days_before_year (y + 1) = days_before_year y + 365 + (if is_leap y then 1 else 0).
Proof.
  unfold days_before_year, is_leap. replace (y + 1 - 1) with y by lia.
  destruct (Z.eqb_spec (y mod 4) 0);
    destruct (Z.eqb_spec (y mod 100) 0);
    destruct (Z.eqb_spec (y mod 400) 0);
    cbn [andb orb negb]; Z.div_mod_to_equations; lia.
Qed.

Lemma toordinal_first_day_tod i t :
  toordinal (first_day_of i t) = toordinal (first_day_of i 0).
Proof. reflexivity. Qed.

Lemma toordinal_last_day i t :
  toordinal (last_day_of i t) = toordinal (first_day_of (i + 1) 0) - 1.
Proof.
  assert (V : valid (first_day_of (i + 1) 0)).
  { unfold valid. split; [apply first_day_of_month_range|].
    split; [|unfold us_per_day; simpl; lia].
    cbn [day year month first_day_of].
    pose proof (days_in_month_ge_28 ((i + 1) / 12) ((i + 1) mod 12 + 1)). lia. }
  pose proof (sub_one_day_toordinal _ V) as H.
  rewrite sub_one_day_first_day_of in H.
  replace (i + 1 - 1) with i in H by lia.
  exact H.
Qed.

Lemma toordinal_first_day_succ i :
  toordinal (first_day_of (i + 1) 0)
  = toordinal (first_day_of i 0) + days_in_month (i / 12) (i mod 12 + 1).
Proof.
  pose proof (toordinal_last_day i 0) as H.
  unfold toordinal in H at 1. cbn [year month day last_day_of] in H.
  unfold toordinal at 2. cbn [year month day first_day_of]. lia.
Qed.

Lemma toordinal_first_day_year i :
  365 <= toordinal (first_day_of (i + 12) 0) - toordinal (first_day_of i 0) <= 366.
Proof.
  unfold toordinal, first_day_of. cbn [year month day].
  assert (E1 : (i + 12) / 12 = i / 12 + 1) by (Z.div_mod_to_equations; lia).
  assert (E2 : (i + 12) mod 12 = i mod 12) by (Z.div_mod_to_equations; lia).
  rewrite E1, E2, days_before_year_succ.
  unfold days_before_month.
  destruct (is_leap (i / 12)), (is_leap (i / 12 + 1)), (2 <? i mod 12 + 1);
    cbn [andb]; lia.
Qed.

(** Whole days from the first day of a window to its last day. *)
Lemma window_days i m t :
  timedelta_days (last_day_of (i + m - 1) t) (first_day_of i t)
  = toordinal (first_day_of (i + m) 0) - toordinal (first_day_of i 0) - 1.
Proof.
  unfold timedelta_days, total_us.
  rewrite toordinal_last_day, (toordinal_first_day_tod i t).
  replace (i + m - 1 + 1) with (i + m) by lia.
  cbn [tod last_day_of first_day_of].
  match goal with
  | |- (?a * us_per_day + t - (?b * us_per_day + t)) / us_per_day = _ =>
      replace (a * us_per_day + t - (b * us_per_day + t))
        with ((a - b) * us_per_day) by lia
  end.
  rewrite Z.div_mul by (unfold us_per_day; lia). lia.
Qed.

Lemma window_days_bounds i t :
  27 <= timedelta_days (last_day_of (i + 1 - 1) t) (first_day_of i t) <= 30 /\
  83 <= timedelta_days (last_day_of (i + 3 - 1) t) (first_day_of i t) <= 92 /\
  167 <= timedelta_days (last_day_of (i + 6 - 1) t) (first_day_of i t) <= 185 /\
  364 <= timedelta_days (last_day_of (i + 12 - 1) t) (first_day_of i t) <= 365.
Proof.
  rewrite !window_days.
  pose proof (toordinal_first_day_succ i) as S0.
  pose proof (toordinal_first_day_succ (i + 1)) as S1.
  pose proof (toordinal_first_day_succ (i + 1 + 1)) as S2.
  pose proof (toordinal_first_day_succ (i + 1 + 1 + 1)) as S3.
  pose proof (toordinal_first_day_succ (i + 1 + 1 + 1 + 1)) as S4.
  pose proof (toordinal_first_day_succ (i + 1 + 1 + 1 + 1 + 1)) as S5.
  replace (i + 1 + 1) with (i + 2) in * by lia.
  replace (i + 2 + 1) with (i + 3) in * by lia.
  replace (i + 3 + 1) with (i + 4) in * by lia.
  replace (i + 4 + 1) with (i + 5) in * by lia.
  replace (i + 5 + 1) with (i + 6) in * by lia.
  pose proof (days_in_month_ge_28 (i / 12) (i mod 12 + 1)).
  pose proof (days_in_month_ge_28 ((i + 1) / 12) ((i + 1) mod 12 + 1)).
  pose proof (days_in_month_ge_28 ((i + 2) / 12) ((i + 2) mod 12 + 1)).
  pose proof (days_in_month_ge_28 ((i + 3) / 12) ((i + 3) mod 12 + 1)).
  pose proof (days_in_month_ge_28 ((i + 4) / 12) ((i + 4) mod 12 + 1)).
  pose proof (days_in_month_ge_28 ((i + 5) / 12) ((i + 5) mod 12 + 1)).
  pose proof (toordinal_first_day_year i).
  lia.
Qed.

(** X12. The four window lengths of the report meet the duration selector
    at matching tenors: for every period that [periods_in_range] emits with
    windows of 1, 3, 6 or 12 months, [select_treasury_duration] applied to
    the start and the end of the period picks the one-month, three-month,
    six-month or one-year bucket. *)
Theorem periods_in_range_durations rets bench months_per term start end_ :
  rets <> [] ->
  1 <= month start <= 12 ->
  1 <= month end_ <= 12 ->
  In (months_per, term) [(1, d1month); (3, d3month); (6, d6month); (12, d1year)] ->
  exists ends,
    (forall fuel, (enough_fuel months_per start end_ <= fuel)%nat ->
       periods_in_range fuel rets bench months_per start end_ = Some ends) /\
    forall p, In p ends ->
      select_treasury_duration (Period.start_date p) (Period.end_date p) = term.
Proof.
  intros Hne Hs He Hm. eexists. split.
  - intros fuel Hfuel. now apply periods_in_range_closed_form.
  - intros p Hp. apply windows_In in Hp. destruct Hp as (k & _ & ->).
    cbn [Period.start_date Period.end_date].
    rewrite select_treasury_duration_days.
    pose proof (window_days_bounds (month_index start + k) (tod start))
      as (B1 & B3 & B6 & B12).
    unfold bucket_of_days.
    destruct Hm as [E|[E|[E|[E|[]]]]]; inversion E; subst months_per term;
      repeat match goal with
             | |- context [?a <=? ?b] => destruct (Z.leb_spec a b); try lia
             end; reflexivity.
Qed.

Lemma periods_in_range_durations_witness :
  exists ends,
    periods_in_range 20 series_2006 None 6 (mkdt 2006 1 3 0) (mkdt 2006 12 29 0)
      = Some ends /\
    forall p, In p ends ->
      select_treasury_duration (Period.start_date p) (Period.end_date p) = d6month.
Proof.
  destruct (periods_in_range_durations series_2006 None 6 d6month
              (mkdt 2006 1 3 0) (mkdt 2006 12 29 0))
    as (ends & Hfuel & Hall).
  - discriminate.
  - simpl; lia.
  - simpl; lia.
  - right. right. left. reflexivity.
  - exists ends. split; [apply Hfuel; vm_compute; lia|exact Hall].
Defined.

(** ** The report *)

(** X13. The bounds configured in the simulation parameters never change
    the report: with returns the bounds are the first and the last date of
    the series, and without returns no period is built at all. *)
Theorem risk_report_ignores_sim_params fuel epoch_now rets sim sim' bench :
  option_map (fun r => (month_periods r, three_month_periods r,
                        six_month_periods r, year_periods r, created r))
    (RiskReport_init fuel epoch_now rets sim bench)
  = option_map (fun r => (month_periods r, three_month_periods r,
                          six_month_periods r, year_periods r, created r))
      (RiskReport_init fuel epoch_now rets sim' bench).
Proof.
  destruct rets as [|r0 rest]; [reflexivity|].
  cbv beta iota zeta delta [RiskReport_init].
  repeat match goal with
         | |- context [match ?x with Some _ => _ | None => None end] =>
             destruct x; [|reflexivity]
         end.
  reflexivity.
Qed.

Section ReportExportFacts.

Variable metrics : Type.
Variable period_to_dict : RiskMetricsPeriod -> metrics.

(** X14. For a series that is not empty, whose first date is at a time of
    day no later than the last one, the report is built with the fuel of
    the one-month windows and its export lists, for the windows of 1, 3, 6
    and 12 months, max(0, N), max(0, N - 2), max(0, N - 5) and
    max(0, N - 11) metric dicts, N counting the months from that of the
    first date through that of the last; each list holds the dict of each
    period in the order of the periods, and [created] is the clock reading
    taken at construction. *)
Theorem risk_report_export fuel epoch_now rets sim bench r0 rest :
  rets = r0 :: rest ->
  let start := date r0 in
  let end_ := date (last rets r0) in
  1 <= month start <= 12 ->
  1 <= month end_ <= 12 ->
  tod start <= tod end_ ->
  (enough_fuel 1 start end_ <= fuel)%nat ->
  exists report,
    RiskReport_init fuel epoch_now rets sim bench = Some report /\
    let d := to_dict metrics period_to_dict report in
    Z.of_nat (length (one_month metrics d)) = Z.max 0 (months_spanned start end_) /\
    Z.of_nat (length (three_month metrics d)) = Z.max 0 (months_spanned start end_ - 2) /\
    Z.of_nat (length (six_month metrics d)) = Z.max 0 (months_spanned start end_ - 5) /\
    Z.of_nat (length (twelve_month metrics d)) = Z.max 0 (months_spanned start end_ - 11) /\
    created_at metrics d = epoch_now /\
    one_month metrics d = map period_to_dict (month_periods report) /\
    three_month metrics d = map period_to_dict (three_month_periods report) /\
    six_month metrics d = map period_to_dict (six_month_periods report) /\
    twelve_month metrics d = map period_to_dict (year_periods report).
Proof.
  intros E start end_ Hs He Ht Hfuel.
  assert (Hne : rets <> []) by (rewrite E; discriminate).
  assert (L : forall m, 1 <= m ->
            Z.of_nat (length (windows rets bench m (tod start) (month_index start)
               (Z.to_nat (last_window_month start end_ - month_index start - m + 2))))
            = Z.max 0 (months_spanned start end_ - m + 1)).
  { intros m Hm. rewrite windows_length. unfold months_spanned, last_window_month.
    destruct (Z.ltb_spec (tod end_) (tod start)); lia. }
  subst rets. cbv beta iota zeta delta [RiskReport_init]. fold start end_.
  rewrite !(periods_in_range_closed_form _ bench _ start end_ fuel Hne Hs He)
    by (unfold enough_fuel in *; lia).
  eexists. split; [reflexivity|].
  cbv zeta. unfold to_dict.
  cbn [one_month three_month six_month twelve_month created_at
       month_periods three_month_periods six_month_periods year_periods created].
  rewrite !length_map, !L by lia.
  repeat split; f_equal; lia.
Qed.

End ReportExportFacts.

Lemma risk_report_export_witness :
  exists report,
    RiskReport_init 20 1136073600 series_2006 sim_2006 None = Some report /\
    length (one_month nat (to_dict nat (fun p => length (Period.returns p)) report))
      = 12%nat /\
    length (twelve_month nat (to_dict nat (fun p => length (Period.returns p)) report))
      = 1%nat.
Proof.
  destruct (risk_report_export nat (fun p => length (Period.returns p))
              20 1136073600 series_2006 sim_2006 None
              (mkDailyReturn (mkdt 2006 1 3 0) zero)
              [mkDailyReturn (mkdt 2006 6 15 0) rate_2pct;
               mkDailyReturn (mkdt 2006 12 29 0) rate_3pct])
    as (report & Hinit & H1 & _ & _ & H12 & _).
  - reflexivity.
  - simpl; lia.
  - simpl; lia.
  - simpl; lia.
  - vm_compute. lia.
  - exists report. split; [exact Hinit|].
    change (months_spanned (date (mkDailyReturn (mkdt 2006 1 3 0) zero))
              (date (last series_2006 (mkDailyReturn (mkdt 2006 1 3 0) zero))))
      with 12 in H1, H12.
    split; lia.
Defined.

(** ** The ratios *)

Section RatioFacts.

Variable np_sum : list float -> float.
Variable tolerant_equals : float -> float -> bool.

(** X15. Only the returns below [mar] and the number of returns reach the
    Sortino ratio: two arrays of the same length with the same returns
    below [mar], in the same order, give the same ratio, whatever their
    other returns are. *)
Theorem sortino_ratio_upside_irrelevant rets rets' period_return mar :
  length rets = length rets' ->
  filter (fun r => fltb r mar) rets = filter (fun r => fltb r mar) rets' ->
  sortino_ratio np_sum tolerant_equals rets period_return mar
  = sortino_ratio np_sum tolerant_equals rets' period_return mar.
Proof.
  intros Hlen Hfil. unfold sortino_ratio, downside. now rewrite Hlen, Hfil.
Qed.

Lemma fsub_diag s m e : fsub (S754_finite s m e) (S754_finite s m e) = zero.
Proof.
  unfold fsub, SFsub. rewrite Z.sub_diag. reflexivity.
Qed.

(** X16. With a return equal to the treasury return the Sharpe ratio is
    zero, 0.0 or -0.0, at every finite volatility other than zero, whether
    or not the tolerance test takes that volatility for zero. *)
Theorem sharpe_ratio_no_excess sv mv ev s m e :
  fabs (sharpe_ratio tolerant_equals (S754_finite sv mv ev)
          (S754_finite s m e) (S754_finite s m e)) = zero.
Proof.
  unfold sharpe_ratio.
  destruct (tolerant_equals (S754_finite sv mv ev) (of_int 0)); [reflexivity|].
  rewrite fsub_diag. reflexivity.
Qed.

(** X17. When the benchmark return equals the treasury return, alpha is
    the excess return of the algorithm over the treasury, for every beta
    that is finite: the beta term vanishes. *)
Theorem alpha_benchmark_at_treasury p st mt et beta :
  Entry.isnan beta = false ->
  Entry.isinf beta = false ->
  alpha p (S754_finite st mt et) (S754_finite st mt et) beta
  = fsub p (S754_finite st mt et).
Proof.
  intros Hnan Hinf. unfold alpha. rewrite fsub_diag.
  destruct beta as [sb|sb| |sb mb eb]; try discriminate; reflexivity.
Qed.

End RatioFacts.

Lemma sortino_ratio_upside_irrelevant_witness :
  sortino_ratio sum_left tolerant_equals_1e6
    [of_int 1; of_int (-2); rate_3pct] (of_int 1) zero
  = sortino_ratio sum_left tolerant_equals_1e6
      [of_int 5; of_int (-2); zero] (of_int 1) zero.
Proof.
  apply (sortino_ratio_upside_irrelevant sum_left tolerant_equals_1e6);
    reflexivity.
Defined.

Lemma alpha_benchmark_at_treasury_witness :
  alpha rate_3pct rate_2pct rate_2pct (of_int 2) = fsub rate_3pct rate_2pct.
Proof.
  apply (alpha_benchmark_at_treasury rate_3pct false 5764607523034235 (-58) (of_int 2));
    reflexivity.
Defined.

Module EntryFacts.
Import String.

(** [check_entry] flags the NaN and the infinities, under every key but
    the period label. *)
Lemma check_entry_flags key value :
  Entry.check_entry key value = true <->
  key <> "period_label"%string /\ (Entry.isnan value = true \/ Entry.isinf value = true).
Proof.
  unfold Entry.check_entry.
  destruct (String.eqb_spec key "period_label"%string) as [->|Hne]; simpl.
  - split; [discriminate|]. intros [H _]. now destruct H.
  - rewrite orb_true_iff. tauto.
Qed.

End EntryFacts.

(** ** A series whose first date is at a later time of day than its last *)

(** C10, on a series stamped at the close of the market, from 3 January
    2006 at 21:00 to 30 June 2006 at 20:00. Six months are spanned, so six
    one-month periods are due. But [replace(day=1)] keeps the times of day:
    the bound of the loop is 30 June at 20:00, the window of June would end
    on 30 June at 21:00, and it is not emitted. Five periods come out, with
    any fuel that lets the loop end, also through the report. *)
Theorem periods_in_range_drops_last_month :
  let start := mkdt 2006 1 3 close_winter in
  let end_ := mkdt 2006 6 30 close_summer in
  series_half_2006 <> [] /\
  date (hd (mkDailyReturn start zero) series_half_2006) = start /\
  date (last series_half_2006 (mkDailyReturn start zero)) = end_ /\
  months_spanned start end_ = 6 /\
  Z.max 0 (months_spanned start end_ - 1 + 1) = 6 /\
  sub_one_day (add_months (replace_day1 end_) 1) = mkdt 2006 6 30 close_summer /\
  sub_one_day (add_months (mkdt 2006 6 1 close_winter) 1) = mkdt 2006 6 30 close_winter /\
  dt_ltb (mkdt 2006 6 30 close_summer) (mkdt 2006 6 30 close_winter) = true /\
  (forall fuel,
     option_map (map (fun p => (Period.start_date p, Period.end_date p)))
       (periods_in_range (6 + fuel) series_half_2006 None 1 start end_)
     = Some [(mkdt 2006 1 1 close_winter, mkdt 2006 1 31 close_winter);
             (mkdt 2006 2 1 close_winter, mkdt 2006 2 28 close_winter);
             (mkdt 2006 3 1 close_winter, mkdt 2006 3 31 close_winter);
             (mkdt 2006 4 1 close_winter, mkdt 2006 4 30 close_winter);
             (mkdt 2006 5 1 close_winter, mkdt 2006 5 31 close_winter)]) /\
  (forall fuel,
     option_map (@length _)
       (periods_in_range (6 + fuel) series_half_2006 None 1 start end_)
     = Some 5%nat) /\
  option_map (fun r => length (month_periods r))
    (RiskReport_init 10 1136073600 series_half_2006 sim_2006 None) = Some 5%nat.
Proof.
  intros start end_.
  assert (F : forall fuel,
            periods_in_range (6 + fuel) series_half_2006 None 1 start end_
            = periods_in_range 6 series_half_2006 None 1 start end_).
  { intros fuel.
    destruct (periods_in_range 6 series_half_2006 None 1 start end_) as [l|] eqn:E;
      [|vm_compute in E; discriminate].
    unfold periods_in_range in *.
    change (length series_half_2006 =? 0)%nat with false in *. cbv iota in *.
    eapply periods_loop_fuel_le; [|exact E]. lia. }
  split; [discriminate|].
  do 7 (split; [reflexivity|]).
  split; [|split].
  - intros fuel. rewrite F. reflexivity.
  - intros fuel. rewrite F. reflexivity.
  - reflexivity.
Qed.
